(** * Commat Commit: a shallow embedding of [src/extension.ts]

    The extension registers one command, [commatCommit.generate].  It reads
    an API key from the editor's secret storage (asking for one on first
    use), runs [git diff --cached], posts the diff to the Gemini endpoint and
    writes the answer into the commit input box.

    The embedding keeps the shape of the TypeScript: every [async] function
    is a computation in a state-and-exception monad over a [World] that
    holds the secret storage, the scripted answers of the user, the scripted
    outcomes of the network and of the child process, and a chronological
    log of everything the extension did to the outside. *)

From stdpp Require Import base option list strings gmap pretty.
From Stdlib Require Import NArith Lia.

Local Open Scope N_scope.

Set Warnings "-register-all".

(** ** JavaScript strings

    A JavaScript string is a sequence of UTF-16 code units.  Literals of
    the source are ASCII and are written with [lit]. *)

Abbreviation jsstring := (list N).

Definition lit (s : string) : jsstring :=
  Ascii.N_of_ascii <$> String.list_ascii_of_string s.
Arguments lit : simpl never.

(** [WhiteSpace] and [LineTerminator] of ECMAScript, the code points that
    [String.prototype.trim] strips. *)
Definition isWhiteSpace (c : N) : bool :=
  (c =? 9) || (c =? 10) || (c =? 11) || (c =? 12) || (c =? 13) ||
  (c =? 32) || (c =? 160) || (c =? 5760) ||
  ((8192 <=? c) && (c <=? 8202)) ||
  (c =? 8232) || (c =? 8233) || (c =? 8239) || (c =? 8287) ||
  (c =? 12288) || (c =? 65279).

Fixpoint trimStart (s : jsstring) : jsstring :=
  match s with
  | [] => []
  | c :: s' => if isWhiteSpace c then trimStart s' else s
  end.

Definition trimEnd (s : jsstring) : jsstring :=
  reverse (trimStart (reverse s)).

(** [s.trim()] *)
Definition trim (s : jsstring) : jsstring := trimEnd (trimStart s).

(** A string made of white space only (the empty string included). *)
Definition allWhiteSpace (s : jsstring) : bool := forallb isWhiteSpace s.

(** Truthiness of a value of type [string | undefined]. *)
Definition truthy (o : option jsstring) : bool :=
  match o with
  | Some (_ :: _) => true
  | _ => false
  end.

Definition jsstring_eqb (a b : jsstring) : bool := bool_decide (a = b).

(** ** Values produced by [JSON.parse]

    [data] has type [any].  A number is kept as its canonical ECMAScript
    rendering [Number::toString]; the only operations the extension applies
    to a number are truthiness and conversion to string, and both are
    functions of that rendering ([0] and [-0] both print as ["0"], and
    [JSON.parse] never yields [NaN]).  An object is the list of its own
    properties. *)
Inductive JSON : Type :=
| JNull
| JBool (b : bool)
| JNum (repr : jsstring)
| JStr (s : jsstring)
| JArr (items : list JSON)
| JObj (fields : list (jsstring * JSON)).

Fixpoint ownProperty (k : jsstring) (fields : list (jsstring * JSON))
  : option JSON :=
  match fields with
  | [] => None
  | (k', v) :: rest => if jsstring_eqb k k' then Some v else ownProperty k rest
  end.

(** [v.k] for one of the names the source reads ([candidates], [content],
    [parts], [text]): none of them is on a prototype, so the access finds an
    own property of an object and is [undefined] on anything else. *)
Definition getProp (k : jsstring) (v : JSON) : option JSON :=
  match v with
  | JObj fields => ownProperty k fields
  | _ => None
  end.

(** [v[0]]: the first element of an array, the first code unit of a string,
    the own property ["0"] of an object. *)
Definition getIndex0 (v : JSON) : option JSON :=
  match v with
  | JArr (x :: _) => Some x
  | JStr (c :: _) => Some (JStr [c])
  | JObj fields => ownProperty (lit "0") fields
  | _ => None
  end.

(** Optional chaining [o?.f]: [undefined] when [o] is [undefined] or
    [null]. *)
Definition optChain (o : option JSON) (f : JSON -> option JSON)
  : option JSON :=
  match o with
  | None | Some JNull => None
  | Some v => f v
  end.

(** [Boolean(v)] *)
Definition toBoolean (o : option JSON) : bool :=
  match o with
  | None | Some JNull => false
  | Some (JBool b) => b
  | Some (JNum r) => negb (jsstring_eqb r (lit "0"))
  | Some (JStr s) => negb (jsstring_eqb s [])
  | Some (JArr _) | Some (JObj _) => true
  end.

(** [xs.join(sep)] on already converted elements; [None] stands for a
    conversion that threw. *)
Fixpoint joinWith (sep : jsstring) (xs : list (option jsstring))
  : option jsstring :=
  match xs with
  | [] => Some []
  | [x] => x
  | x :: rest =>
      match x, joinWith sep rest with
      | Some s, Some r => Some (s ++ sep ++ r)
      | _, _ => None
      end
  end.

(** [ToString(v)].  An array prints as its elements joined by commas, with
    [null] printed as the empty string.  An object prints as
    ["[object Object]"], unless it has an own property [toString]: a parsed
    value is never callable, [Object.prototype.valueOf] hands back the
    object itself, and the conversion throws a [TypeError] ([None]). *)
Fixpoint toString (v : JSON) : option jsstring :=
  match v with
  | JNull => Some (lit "null")
  | JBool true => Some (lit "true")
  | JBool false => Some (lit "false")
  | JNum r => Some r
  | JStr s => Some s
  | JArr items =>
      joinWith (lit ",")
        ((fix elems (l : list JSON) : list (option jsstring) :=
            match l with
            | [] => []
            | JNull :: l' => Some [] :: elems l'
            | x :: l' => toString x :: elems l'
            end) items)
  | JObj fields =>
      match ownProperty (lit "toString") fields with
      | Some _ => None
      | None => Some (lit "[object Object]")
      end
  end.

(** An element of the array handed to [join]: [undefined] and [null] print
    as the empty string. *)
Definition joinElement (o : option JSON) : option jsstring :=
  match o with
  | None | Some JNull => Some []
  | Some v => toString v
  end.

(** ** Results and the outside world *)

(** The outcome of an [async] function: a value, or a thrown [Error] of
    which only [message] is ever read. *)
Inductive Result (A : Type) : Type :=
| Ok (a : A)
| Throw (message : jsstring).
Arguments Ok {A} a.
Arguments Throw {A} message.

(** What the code reads of a [Response]: [status], [ok], and the value
    [response.json()] resolves to (or the error it rejects with). *)
Record Response : Type := mkResponse {
  status : N;
  ok : bool;
  json : Result JSON
}.

Inductive FetchOutcome : Type :=
| Responds (response : Response)
| Rejects (message : jsstring).

(** How a child process ends: it cannot be spawned, or it runs, writes
    [stdout] and [stderr] and exits with a status (a process ended by a
    signal counts with the non-zero exits). *)
Inductive Process : Type :=
| CannotRun
| Runs (exitCode : N) (stdout stderr : jsstring).

(** Why [exec] hands a non-null [err] to its callback. *)
Inductive ExecFailure : Type :=
| SpawnFailed
| ExitNonZero (code : N)
| MaxBufferExceeded.

(** [Buffer.byteLength(s, "utf8")]: the size [exec] holds against
    [maxBuffer], for each of the two streams.  A surrogate is half of a
    four-byte sequence. *)
Definition utf8Width (c : N) : N :=
  if c <? 128 then 1
  else if c <? 2048 then 2
  else if (55296 <=? c) && (c <=? 57343) then 2
  else 3.

Fixpoint utf8Length (s : jsstring) : N :=
  match s with
  | [] => 0
  | c :: s' => utf8Width c + utf8Length s'
  end.

(** Everything the extension does to the outside, in order. *)
Inductive Event : Type :=
| EvSecretStore (key value : jsstring)
| EvInputBox (prompt : jsstring) (answer : option jsstring)
| EvInformationMessage (message : jsstring)
| EvWarningMessage (message : jsstring)
| EvErrorMessage (message : jsstring) (items : list jsstring)
    (picked : option jsstring)
| EvProgress (title : jsstring)
| EvExec (command cwd : jsstring) (maxBuffer : N)
| EvFetch (url prompt : jsstring)
| EvConsoleError
| EvCommitInput (repository : nat) (value : jsstring).

Record World : Type := mkWorld {
  (** [extensionContext.secrets] *)
  secrets : gmap jsstring jsstring;
  (** what the user will type into the successive input boxes
      ([None]: the box is dismissed) *)
  inputAnswers : list (option jsstring);
  (** which button the user will press on the successive error dialogs
      that offer buttons ([None]: the dialog is dismissed) *)
  choiceAnswers : list (option jsstring);
  (** how the successive calls of [fetch] will end *)
  network : list FetchOutcome;
  (** [vscode.workspace.workspaceFolders], as the [fsPath] of each folder *)
  workspaceFolders : option (list jsstring);
  (** how [git diff --cached] ends when it is run *)
  gitDiffCached : Process;
  (** the [repositories] of the [vscode.git] extension, each as the value
      of its commit input box; [None] when the extension is missing *)
  gitRepositories : option (list jsstring);
  log : list Event
}.

Definition setSecrets (f : gmap jsstring jsstring -> gmap jsstring jsstring)
    (w : World) : World :=
  mkWorld (f (secrets w)) (inputAnswers w) (choiceAnswers w) (network w)
    (workspaceFolders w) (gitDiffCached w) (gitRepositories w) (log w).

Definition setInputAnswers (l : list (option jsstring)) (w : World) : World :=
  mkWorld (secrets w) l (choiceAnswers w) (network w)
    (workspaceFolders w) (gitDiffCached w) (gitRepositories w) (log w).

Definition setChoiceAnswers (l : list (option jsstring)) (w : World) : World :=
  mkWorld (secrets w) (inputAnswers w) l (network w)
    (workspaceFolders w) (gitDiffCached w) (gitRepositories w) (log w).

Definition setNetwork (l : list FetchOutcome) (w : World) : World :=
  mkWorld (secrets w) (inputAnswers w) (choiceAnswers w) l
    (workspaceFolders w) (gitDiffCached w) (gitRepositories w) (log w).

Definition setGitRepositories (r : option (list jsstring)) (w : World)
  : World :=
  mkWorld (secrets w) (inputAnswers w) (choiceAnswers w) (network w)
    (workspaceFolders w) (gitDiffCached w) r (log w).

Definition emit (e : Event) (w : World) : World :=
  mkWorld (secrets w) (inputAnswers w) (choiceAnswers w) (network w)
    (workspaceFolders w) (gitDiffCached w) (gitRepositories w)
    (log w ++ [e]).

(** ** The monad of [async] functions *)

Definition M (A : Type) : Type := World -> Result A * World.

Definition ret {A} (a : A) : M A := fun w => (Ok a, w).

Definition throw {A} (message : jsstring) : M A := fun w => (Throw message, w).

Definition bind {A B} (m : M A) (k : A -> M B) : M B :=
  fun w =>
    match m w with
    | (Ok a, w') => k a w'
    | (Throw e, w') => (Throw e, w')
    end.

(** [try { m } catch (err) { handler(err.message) }] *)
Definition tryCatch {A} (m : M A) (handler : jsstring -> M A) : M A :=
  fun w =>
    match m w with
    | (Ok a, w') => (Ok a, w')
    | (Throw e, w') => handler e w'
    end.

Declare Scope async_scope.
Delimit Scope async_scope with async.
Notation "x <- m ;; k" := (bind m (fun x => k))
  (at level 100, m at next level, right associativity) : async_scope.
Notation "m ;; k" := (bind m (fun _ => k))
  (at level 100, right associativity) : async_scope.
Local Open Scope async_scope.

(** ** The host interfaces the extension calls *)

(** What the user does at the next input box, at the next dialog; with the
    script used up the user dismisses it. *)
Definition nextInput (w : World) : option jsstring :=
  match inputAnswers w with
  | [] => None
  | a :: _ => a
  end.

Definition nextChoice (w : World) : option jsstring :=
  match choiceAnswers w with
  | [] => None
  | a :: _ => a
  end.

(** The world after a value is stored, after an input box is answered,
    after a dialog is answered, after a request is sent. *)
Definition stored (key value : jsstring) (w : World) : World :=
  emit (EvSecretStore key value) (setSecrets (insert key value) w).

Definition asked (prompt : jsstring) (w : World) : World :=
  emit (EvInputBox prompt (nextInput w))
    (setInputAnswers (tail (inputAnswers w)) w).

Definition chose (message : jsstring) (items : list jsstring) (w : World)
  : World :=
  emit (EvErrorMessage message items (nextChoice w))
    (setChoiceAnswers (tail (choiceAnswers w)) w).

Definition fetched (url prompt : jsstring) (w : World) : World :=
  emit (EvFetch url prompt) (setNetwork (tail (network w)) w).

(** [extensionContext.secrets.get(key)] *)
Definition secretsGet (key : jsstring) : M (option jsstring) :=
  fun w => (Ok (secrets w !! key), w).

(** [extensionContext.secrets.store(key, value)] *)
Definition secretsStore (key value : jsstring) : M unit :=
  fun w => (Ok tt, stored key value w).

(** [vscode.window.showInputBox({ prompt, password: true, ... })] *)
Definition showInputBox (prompt : jsstring) : M (option jsstring) :=
  fun w => (Ok (nextInput w), asked prompt w).

Definition showInformationMessage (message : jsstring) : M unit :=
  fun w => (Ok tt, emit (EvInformationMessage message) w).

Definition showWarningMessage (message : jsstring) : M unit :=
  fun w => (Ok tt, emit (EvWarningMessage message) w).

(** [vscode.window.showErrorMessage(message)], a plain notification *)
Definition showErrorMessage (message : jsstring) : M unit :=
  fun w => (Ok tt, emit (EvErrorMessage message [] None) w).

(** [await vscode.window.showErrorMessage(message, ...items)]: resolves to
    the button pressed, or to [undefined]. *)
Definition showErrorMessageItems (message : jsstring) (items : list jsstring)
  : M (option jsstring) :=
  fun w => (Ok (nextChoice w), chose message items w).

(** [vscode.window.withProgress({ title, ... }, task)] *)
Definition withProgress {A} (title : jsstring) (task : M A) : M A :=
  fun w => task (emit (EvProgress title) w).

(** [fetch(url, { method: "POST", body })]; of the body only the prompt
    text varies.  With the script used up the call rejects. *)
Definition fetch (url prompt : jsstring) : M Response :=
  fun w =>
    (match network w with
     | [] => Throw (lit "fetch failed")
     | Responds r :: _ => Ok r
     | Rejects e :: _ => Throw e
     end,
     fetched url prompt w).

(** [await response.json()] *)
Definition responseJson (response : Response) : M JSON :=
  fun w => (json response, w).

Definition consoleError : M unit :=
  fun w => (Ok tt, emit EvConsoleError w).

(** [exec(command, { cwd, maxBuffer }, callback)]: what the callback
    receives, either a non-null [err] or, with [err] null, the whole
    [stdout].  The child is stopped, and [err] is set, as soon as either
    stream has written more than [maxBuffer] bytes; what had been captured
    of the output comes with an [err] too, but the callbacks of this
    extension never read it then, so it is not part of the outcome. *)
Definition exec (command cwd : jsstring) (maxBuffer : N)
  : M (ExecFailure + jsstring) :=
  fun w =>
    (Ok match gitDiffCached w with
        | CannotRun => inl SpawnFailed
        | Runs code out errOut =>
            if (maxBuffer <? utf8Length out) || (maxBuffer <? utf8Length errOut)
            then inl MaxBufferExceeded
            else if code =? 0 then inr out
            else inl (ExitNonZero code)
        end,
     emit (EvExec command cwd maxBuffer) w).

(** [repo.inputBox.value = value] *)
Definition setInputBoxValue (repo : nat) (value : jsstring) : M unit :=
  fun w =>
    (Ok tt, emit (EvCommitInput repo value)
              (setGitRepositories
                 (list_insert repo value <$> gitRepositories w) w)).

(** ** Constants of the source *)

Definition secretName : jsstring := lit "geminiApiKey".
Definition promptFirstKey : jsstring := lit "Enter your Gemini API Key".
Definition promptNewKey : jsstring :=
  lit "Gemini API key terkena limit. Masukkan API key baru:".
Definition msgKeySaved : jsstring := lit "Gemini API Key saved securely".
Definition msgNoWorkspace : jsstring := lit "No workspace folder found".
Definition msgDiffFailed : jsstring := lit "Failed to get staged changes".
Definition msgNoStaged : jsstring :=
  lit "No staged changes found. Please run git add first.".
Definition msgRateLimitDialog : jsstring :=
  lit "Gemini API rate limit exceeded for this API key.".
Definition btnEnterNewKey : jsstring := lit "Enter New API Key".
Definition btnCancel : jsstring := lit "Cancel".
Definition msgNoKeyProvided : jsstring := lit "No API key provided".
Definition msgRateLimited : jsstring := lit "Gemini API rate limit exceeded".
Definition msgApiError : jsstring := lit "Gemini API error: ".
Definition msgParseFailed : jsstring :=
  lit "Failed to generate commit message".
Definition msgEmpty : jsstring := lit "Empty commit message from Gemini".
Definition msgNoGitExtension : jsstring := lit "Git extension not found".
Definition msgNoRepository : jsstring := lit "No Git repository found".
Definition msgErrorPrefix : jsstring := lit "Commat Commit Error: ".
Definition msgTypeError : jsstring :=
  lit "Cannot convert object to primitive value".
Definition gitCommand : jsstring := lit "git diff --cached".
Definition maxBuffer : N := 1024 * 1024.

(** The title ends in U+2026. *)
Definition progressTitle : jsstring :=
  lit "Commat Commit: Generating commit message" ++ [8230].

Definition endpoint : jsstring :=
  lit "https://generativelanguage.googleapis.com/v1beta/models/gemini-2.5-flash:generateContent?key=".

Definition promptFor (diff : jsstring) : jsstring :=
  lit "Generate a Conventional Commit message from this git diff." ++ [10] ++
  lit "Answer with a single-line commit message, maximum 50 characters." ++ [10] ++
  lit "Only output the commit message." ++ [10; 10] ++ diff.

(** [`${n}`] for a status code *)
Definition numberToString (n : N) : jsstring := lit (pretty n).
Arguments numberToString : simpl never.

(** ** The functions of [extension.ts] *)

(** [getGeminiApiKey] *)
Definition getGeminiApiKey : M (option jsstring) :=
  apiKey <- secretsGet secretName ;;
  if negb (truthy apiKey) then
    apiKey <- showInputBox promptFirstKey ;;
    (if truthy apiKey then
       secretsStore secretName (default [] apiKey) ;;
       showInformationMessage msgKeySaved
     else ret tt) ;;
    ret apiKey
  else ret apiKey.

(** [getWorkspaceRoot] *)
Definition getWorkspaceRoot : M jsstring :=
  fun w =>
    match workspaceFolders w with
    | None | Some [] => (Throw msgNoWorkspace, w)
    | Some (folder :: _) => (Ok folder, w)
    end.

(** [getGitDiff]: the promise rejects when the executor throws (no
    workspace root) and when the callback gets an [err]. *)
Definition getGitDiff : M jsstring :=
  cwd <- getWorkspaceRoot ;;
  out <- exec gitCommand cwd maxBuffer ;;
  match out with
  | inl _ => throw msgDiffFailed
  | inr stdout => ret stdout
  end.

(** [promptNewGeminiApiKey] *)
Definition promptNewGeminiApiKey : M (option jsstring) :=
  newKey <- showInputBox promptNewKey ;;
  (if truthy newKey then secretsStore secretName (default [] newKey)
   else ret tt) ;;
  ret newKey.

(** [data?.candidates?.[0]?.content?.parts] *)
Definition partsOf (data : JSON) : option JSON :=
  optChain (optChain (optChain (optChain (Some data)
    (getProp (lit "candidates"))) getIndex0)
    (getProp (lit "content"))) (getProp (lit "parts")).

(** [parts.map((p) => p?.text).filter(Boolean)] *)
Definition textsOf (parts : list JSON) : list (option JSON) :=
  filter (fun o => toBoolean o = true)
    ((fun p => optChain (Some p) (getProp (lit "text"))) <$> parts).

(** [parts.map(...).filter(Boolean).join("")]; [None] when a conversion to
    string throws. *)
Definition joinedText (parts : list JSON) : option jsstring :=
  joinWith [] (joinElement <$> textsOf parts).

(** The body of [generateCommitMessage], with [self] for the call the
    function makes to itself. *)
Definition generateCommitMessageBody
    (self : jsstring -> jsstring -> M jsstring)
    (apiKey diff : jsstring) : M jsstring :=
  response <- fetch (endpoint ++ apiKey) (promptFor diff) ;;
  if status response =? 429 then
    choice <- showErrorMessageItems msgRateLimitDialog
                [btnEnterNewKey; btnCancel] ;;
    if bool_decide (choice = Some btnEnterNewKey) then
      newKey <- promptNewGeminiApiKey ;;
      if negb (truthy newKey) then throw msgNoKeyProvided
      else self (default [] newKey) diff
    else throw msgRateLimited
  else if negb (ok response) then
    throw (msgApiError ++ numberToString (status response))
  else
    data <- responseJson response ;;
    match partsOf data with
    | Some (JArr parts) =>
        match joinedText parts with
        | None => throw msgTypeError
        | Some joined =>
            let text := trim joined in
            if negb (truthy (Some text)) then throw msgEmpty
            else ret text
        end
    | _ => consoleError ;; throw msgParseFailed
    end.

(** Each call consumes one scripted outcome of the network before it can
    call itself, so [S (length (network w))] unfoldings are enough. *)
Fixpoint generateCommitMessageN (fuel : nat) (apiKey diff : jsstring)
  : M jsstring :=
  match fuel with
  | O => throw []
  | S fuel' =>
      generateCommitMessageBody (generateCommitMessageN fuel') apiKey diff
  end.

(** [generateCommitMessage] *)
Definition generateCommitMessage (apiKey diff : jsstring) : M jsstring :=
  fun w => generateCommitMessageN (S (length (network w))) apiKey diff w.

(** [getGitApi], as the [repositories] of the API it returns *)
Definition getGitApi : M (list jsstring) :=
  fun w =>
    match gitRepositories w with
    | None => (Throw msgNoGitExtension, w)
    | Some repos => (Ok repos, w)
    end.

(** [getActiveRepository], as an index into [git.repositories] *)
Definition getActiveRepository : M nat :=
  repositories <- getGitApi ;;
  if bool_decide (length repositories = 0%nat) then throw msgNoRepository
  else ret 0%nat.

(** The handler [activate] registers for [commatCommit.generate]. *)
Definition commatCommitGenerate : M unit :=
  tryCatch
    (apiKey <- getGeminiApiKey ;;
     if negb (truthy apiKey) then ret tt
     else
       withProgress progressTitle
         (diff <- getGitDiff ;;
          if negb (truthy (Some (trim diff))) then
            showWarningMessage msgNoStaged
          else
            rawMessage <- generateCommitMessage (default [] apiKey) diff ;;
            repo <- getActiveRepository ;;
            setInputBoxValue repo rawMessage))
    (fun message => showErrorMessage (msgErrorPrefix ++ message)).

(** ** Observing a run *)

Definition isFetch (e : Event) : bool :=
  match e with EvFetch _ _ => true | _ => false end.

Definition isExec (e : Event) : bool :=
  match e with EvExec _ _ _ => true | _ => false end.

Definition isErrorMessage (e : Event) : bool :=
  match e with EvErrorMessage _ _ _ => true | _ => false end.

Definition isInputBox (e : Event) : bool :=
  match e with EvInputBox _ _ => true | _ => false end.

Definition isCommitInput (e : Event) : bool :=
  match e with EvCommitInput _ _ => true | _ => false end.

Definition isSecretStore (e : Event) : bool :=
  match e with EvSecretStore _ _ => true | _ => false end.

(** How many of the events satisfy [p]. *)
Definition count (p : Event -> bool) (evs : list Event) : nat :=
  length (List.filter p evs).

Definition networkCalls (evs : list Event) : nat := count isFetch evs.

(** The events of a run: what [w'] logged after [w]. *)
Definition eventsSince (w w' : World) : list Event :=
  drop (length (log w)) (log w').

(** The three events of a replacement of the key after a rate limit. *)
Definition replacement (v : jsstring) : list Event :=
  [EvErrorMessage msgRateLimitDialog [btnEnterNewKey; btnCancel]
     (Some btnEnterNewKey);
   EvInputBox promptNewKey (Some v);
   EvSecretStore secretName v].

(** Following the words of the specification, "the first candidate's first
    text segment": [data.candidates[0].content.parts[0].text]. *)
Definition firstTextSegment (data : JSON) : option jsstring :=
  match partsOf data with
  | Some (JArr (p :: _)) =>
      match getProp (lit "text") p with
      | Some (JStr s) => Some s
      | _ => None
      end
  | _ => None
  end.

(** The key a call of [generateCommitMessage] on [w] retries with: the
    answer is a 429, the user presses "Enter New API Key" and types a
    non-empty key. *)
Definition retryKey (w : World) : option jsstring :=
  match network w with
  | Responds r :: _ =>
      if (status r =? 429)
         && bool_decide (nextChoice w = Some btnEnterNewKey)
         && truthy (nextInput w)
      then nextInput w else None
  | _ => None
  end.

(** The world in which that retry starts. *)
Definition retried (apiKey diff newKey : jsstring) (w : World) : World :=
  stored secretName newKey
    (asked promptNewKey
       (chose msgRateLimitDialog [btnEnterNewKey; btnCancel]
          (fetched (endpoint ++ apiKey) (promptFor diff) w))).

(** One attempt, cut off where the function would call itself. *)
Definition attemptOnce (apiKey diff : jsstring) : M jsstring :=
  generateCommitMessageBody (fun _ _ => throw []) apiKey diff.

(** ** Sample values

    The shape of an answer of the endpoint, and worlds to run the command
    in: a key is stored, one folder is open, one repository is known. *)

(** [{ text: s }] *)
Definition textPart (s : jsstring) : JSON := JObj [(lit "text", JStr s)].

(** [{ candidates: [{ content: { parts } }] }] *)
Definition reply (parts : list JSON) : JSON :=
  JObj [(lit "candidates",
         JArr [JObj [(lit "content", JObj [(lit "parts", JArr parts)])]])].

Definition answers (parts : list JSON) : FetchOutcome :=
  Responds (mkResponse 200 true (Ok (reply parts))).

Definition fails (status : N) : FetchOutcome :=
  Responds (mkResponse status false (Throw (lit "Unexpected end of JSON input"))).

Definition sampleDiff : jsstring :=
  lit "diff --git a/x.txt b/x.txt" ++ [10] ++ lit "+hello" ++ [10].

Definition key1 : jsstring := lit "key-1".
Definition key2 : jsstring := lit "key-2".
Definition key3 : jsstring := lit "key-3".

Definition sampleWorld (stdout : jsstring) (net : list FetchOutcome)
    (choices inputs : list (option jsstring)) : World :=
  mkWorld {[ secretName := key1 ]} inputs choices net
    (Some [lit "/repo"]) (Runs 0 stdout []) (Some [[]]) [].

(** The same with nothing stored yet. *)
Definition freshWorld (inputs : list (option jsstring)) : World :=
  mkWorld ∅ inputs [] [answers [textPart (lit "fix: typo")]]
    (Some [lit "/repo"]) (Runs 0 sampleDiff []) (Some [[]]) [].

(** The answer is a 429 twice; each time the user asks to enter a key and
    types one; the third answer carries a message. *)
Definition wRateLimitedTwice : World :=
  sampleWorld sampleDiff
    [fails 429; fails 429; answers [textPart (lit "fix: typo")]]
    [Some btnEnterNewKey; Some btnEnterNewKey] [Some key2; Some key3].

(** The answer is a 429, the user types a new key, the retry meets a 500. *)
Definition wReplacedThenError : World :=
  sampleWorld sampleDiff [fails 429; fails 500]
    [Some btnEnterNewKey] [Some key2].

(** The answer is a 429 and the user presses "Cancel". *)
Definition wDeclined : World :=
  sampleWorld sampleDiff [fails 429] [Some btnCancel] [].

Definition wServerError : World := sampleWorld sampleDiff [fails 500] [] [].

(** The first candidate carries its text in two parts. *)
Definition twoSegments : JSON :=
  reply [textPart (lit "feat: add"); textPart (lit " hello")].

Definition wTwoSegments : World :=
  sampleWorld sampleDiff [Responds (mkResponse 200 true (Ok twoSegments))]
    [] [].

Definition wHello : World :=
  sampleWorld sampleDiff
    [answers [textPart (lit "feat: add hello line" ++ [10])]] [] [].

Definition blankDiff : jsstring := lit "   " ++ [10; 9].

Definition wBlank : World :=
  sampleWorld blankDiff [answers [textPart (lit "fix: typo")]] [] [].

(** ** More sample worlds *)

(** No folder is open. *)
Definition wNoWorkspace : World :=
  mkWorld {[ secretName := key1 ]} [] [] [answers [textPart (lit "fix: typo")]]
    (Some []) (Runs 0 sampleDiff []) (Some [[]]) [].

(** [git] is not a repository here: it exits with 128. *)
Definition wGitFails : World :=
  mkWorld {[ secretName := key1 ]} [] [] [answers [textPart (lit "fix: typo")]]
    (Some [lit "/repo"]) (Runs 128 [] (lit "fatal: not a git repository"))
    (Some [[]]) [].

(** [git] exits with 0 and its diff is short, but it has written one byte
    more than [maxBuffer] of warnings to its standard error. *)
Definition wGitNoisy : World :=
  mkWorld {[ secretName := key1 ]} [] [] [answers [textPart (lit "fix: typo")]]
    (Some [lit "/repo"])
    (Runs 0 sampleDiff (replicate (S (N.to_nat maxBuffer)) 97))
    (Some [[]]) [].

(** The [vscode.git] extension is missing. *)
Definition wNoGitExtension : World :=
  mkWorld {[ secretName := key1 ]} [] [] [answers [textPart (lit "fix: typo")]]
    (Some [lit "/repo"]) (Runs 0 sampleDiff []) None [].

(** Two folders and two repositories, the second with a draft in its
    input box. *)
Definition wTwoRepositories : World :=
  mkWorld {[ secretName := key1 ]} [] [] [answers [textPart (lit "fix: typo")]]
    (Some [lit "/repo"; lit "/other"]) (Runs 0 sampleDiff [])
    (Some [lit "old"; lit "draft"]) [].

(** The network is down. *)
Definition wNetworkDown : World :=
  sampleWorld sampleDiff [Rejects (lit "fetch failed")] [] [].

(** The answer is a success whose body is not JSON. *)
Definition wNotJson : World :=
  sampleWorld sampleDiff
    [Responds (mkResponse 200 true
                 (Throw (lit "Unexpected token < in JSON at position 0")))]
    [] [].

(** The requests among the events, each as its URL and its prompt, and the
    entries written to the secret storage, each as its name and value. *)
Definition requestsOf (evs : list Event) : list (jsstring * jsstring) :=
  omap (fun e => match e with
                 | EvFetch url prompt => Some (url, prompt)
                 | _ => None
                 end) evs.

Definition storesOf (evs : list Event) : list (jsstring * jsstring) :=
  omap (fun e => match e with
                 | EvSecretStore key value => Some (key, value)
                 | _ => None
                 end) evs.

(** The events of a call that replaces the key once for each of [keys]:
    the request with the key in hand, then for every replacement its three
    events and the request with the new key, and in the end [closing], what
    follows the last request. *)
Fixpoint callEvents (diff apiKey : jsstring) (keys : list jsstring)
    (closing : list Event) : list Event :=
  EvFetch (endpoint ++ apiKey) (promptFor diff) ::
  match keys with
  | [] => closing
  | k :: keys' => replacement k ++ callEvents diff k keys' closing
  end.

(** The answer says 42 where a text is expected. *)
Definition wNumberAsText : World :=
  sampleWorld sampleDiff
    [answers [JObj [(lit "text", JNum (lit "42"))]]] [] [].

(** A message of two lines, the first longer than fifty characters. *)
Definition longMessage : jsstring :=
  lit "feat: add a greeting line to the sample text file x.txt" ++ [10] ++
  lit "and explain why".

Definition wLongMessage : World :=
  sampleWorld sampleDiff [answers [textPart longMessage]] [] [].

(** ** The earlier version of the file

    The repository also keeps an earlier version of [extension.ts].  Its
    handler and its helpers are those above, with the context passed as an
    argument; its [generateCommitMessage] sends another prompt, checks no
    status, and reads the text with plain member accesses. *)
Module Earlier.

Definition promptFor (diff : jsstring) : jsstring :=
  lit " Generate a Conventional Commit message from this git diff." ++ [10] ++
  lit "Only output the commit message." ++ [10] ++
  diff ++ [10] ++ lit "                ".

(** The [TypeError] of reading a property of [undefined] or [null], and of
    calling what is not a function. *)
Definition cannotRead (what name : jsstring) : jsstring :=
  lit "Cannot read properties of " ++ what ++ lit " (reading '" ++ name
  ++ lit "')".

Definition notAFunction : jsstring :=
  lit "data.candidates[0].content.parts[0].text.trim is not a function".

(** [o.name], where [read] is the access on a value that has properties. *)
Definition member (name : jsstring) (read : JSON -> option JSON)
    (o : option JSON) : Result (option JSON) :=
  match o with
  | None => Throw (cannotRead (lit "undefined") name)
  | Some JNull => Throw (cannotRead (lit "null") name)
  | Some v => Ok (read v)
  end.

Definition andThen {A B} (r : Result A) (k : A -> Result B) : Result B :=
  match r with
  | Ok a => k a
  | Throw e => Throw e
  end.

(** [data.candidates[0].content.parts[0].text.trim()]: only a string has a
    [trim] to call. *)
Definition textOf (data : JSON) : Result jsstring :=
  andThen (member (lit "candidates") (getProp (lit "candidates")) (Some data))
    (fun candidates =>
  andThen (member (lit "0") getIndex0 candidates) (fun candidate =>
  andThen (member (lit "content") (getProp (lit "content")) candidate)
    (fun content =>
  andThen (member (lit "parts") (getProp (lit "parts")) content) (fun parts =>
  andThen (member (lit "0") getIndex0 parts) (fun part =>
  andThen (member (lit "text") (getProp (lit "text")) part) (fun text =>
  match text with
  | None => Throw (cannotRead (lit "undefined") (lit "trim"))
  | Some JNull => Throw (cannotRead (lit "null") (lit "trim"))
  | Some (JStr s) => Ok (trim s)
  | Some _ => Throw notAFunction
  end)))))).

(** [generateCommitMessage] *)
Definition generateCommitMessage (apiKey diff : jsstring) : M jsstring :=
  response <- fetch (endpoint ++ apiKey) (promptFor diff) ;;
  data <- responseJson response ;;
  fun w => (textOf data, w).

(** The handler [activate] registers for [commatCommit.generate]. *)
Definition commatCommitGenerate : M unit :=
  tryCatch
    (apiKey <- getGeminiApiKey ;;
     if negb (truthy apiKey) then ret tt
     else
       withProgress progressTitle
         (diff <- getGitDiff ;;
          if negb (truthy (Some (trim diff))) then
            showWarningMessage msgNoStaged
          else
            commitMessage <- generateCommitMessage (default [] apiKey) diff ;;
            repo <- getActiveRepository ;;
            setInputBoxValue repo commitMessage))
    (fun message => showErrorMessage (msgErrorPrefix ++ message)).

End Earlier.

(** The text of the answer is blank. *)
Definition wBlankAnswer : World :=
  sampleWorld sampleDiff [answers [textPart (lit "  " ++ [10])]] [] [].

(** A 429 whose body is the error report of the endpoint. *)
Definition rateLimitReport : JSON :=
  JObj [(lit "error", JObj [(lit "code", JNum (lit "429"))])].

(** Reading a field of a world built by the transformers. *)
Ltac world_simpl :=
  cbn [secrets inputAnswers choiceAnswers network workspaceFolders
       gitDiffCached gitRepositories log
       retried stored asked chose fetched emit setSecrets setInputAnswers
       setChoiceAnswers setNetwork setGitRepositories fst snd] in *.

(** The literals stay folded in the proofs. *)
Opaque lit numberToString.

(** * Properties *)

(** ** Trimming *)

Section Trim.
Implicit Types (s t : jsstring) (c : N).

Lemma trimStart_nil_iff s : trimStart s = [] <-> allWhiteSpace s = true.
Proof.
  induction s as [|c s IH]; simpl; [done|].
  destruct (isWhiteSpace c); simpl; [exact IH|].
  split; discriminate.
Qed.

Lemma trimStart_head s c t : trimStart s = c :: t -> isWhiteSpace c = false.
Proof.
  induction s as [|a s IH]; simpl; [discriminate|].
  destruct (isWhiteSpace a) eqn:Ha; [exact IH|].
  intros [= -> ->]. exact Ha.
Qed.

Lemma trimStart_fixed s c : isWhiteSpace c = false -> trimStart (c :: s) = c :: s.
Proof. intros H. simpl. by rewrite H. Qed.

Lemma trimStart_idem s : trimStart (trimStart s) = trimStart s.
Proof.
  destruct (trimStart s) as [|c t] eqn:E; [done|].
  apply trimStart_fixed. by apply trimStart_head in E.
Qed.

(** Leading white space is dropped whatever follows the first character
    that is kept. *)
Lemma trimStart_app s c t :
  isWhiteSpace c = false -> trimStart (s ++ c :: t) = trimStart s ++ c :: t.
Proof.
  intros Hc. induction s as [|a s IH]; simpl.
  - by rewrite Hc.
  - destruct (isWhiteSpace a); [exact IH | done].
Qed.

Lemma allWhiteSpace_reverse s : allWhiteSpace (reverse s) = allWhiteSpace s.
Proof.
  unfold allWhiteSpace. induction s as [|c s IH]; [done|].
  rewrite reverse_cons, forallb_app, IH. simpl.
  rewrite andb_true_r. apply andb_comm.
Qed.

Lemma trimEnd_nil_iff s : trimEnd s = [] <-> allWhiteSpace s = true.
Proof.
  unfold trimEnd. rewrite <- allWhiteSpace_reverse, <- trimStart_nil_iff.
  split; intros H.
  - apply (f_equal reverse) in H. by rewrite reverse_involutive in H.
  - by rewrite H.
Qed.

Lemma trimEnd_cons s c :
  isWhiteSpace c = false -> trimEnd (c :: s) = c :: trimEnd s.
Proof.
  intros Hc. unfold trimEnd.
  rewrite reverse_cons, trimStart_app by done.
  by rewrite reverse_snoc.
Qed.

Lemma trimEnd_last s c : last (trimEnd s) = Some c -> isWhiteSpace c = false.
Proof.
  unfold trimEnd. rewrite last_reverse.
  destruct (trimStart (reverse s)) as [|a t] eqn:E; [discriminate|].
  intros [= ->]. by apply trimStart_head in E.
Qed.

Lemma trimEnd_idem s : trimEnd (trimEnd s) = trimEnd s.
Proof. unfold trimEnd. by rewrite reverse_involutive, trimStart_idem. Qed.

Lemma allWhiteSpace_trimStart s :
  allWhiteSpace (trimStart s) = allWhiteSpace s.
Proof.
  induction s as [|c s IH]; [done|]. simpl.
  destruct (isWhiteSpace c) eqn:Hc; simpl; [exact IH | by rewrite Hc].
Qed.

(** [s.trim()] is empty exactly when [s] is white space only. *)
Lemma trim_nil_iff s : trim s = [] <-> allWhiteSpace s = true.
Proof. unfold trim. by rewrite trimEnd_nil_iff, allWhiteSpace_trimStart. Qed.

Lemma trim_head s c : head (trim s) = Some c -> isWhiteSpace c = false.
Proof.
  unfold trim. destruct (trimStart s) as [|a t] eqn:E.
  - discriminate.
  - pose proof (trimStart_head _ _ _ E) as Ha.
    rewrite trimEnd_cons by done. by intros [= <-].
Qed.

Lemma trim_last s c : last (trim s) = Some c -> isWhiteSpace c = false.
Proof. apply trimEnd_last. Qed.

Lemma trim_idem s : trim (trim s) = trim s.
Proof.
  unfold trim at 1.
  assert (trimStart (trim s) = trim s) as ->.
  { destruct (trim s) as [|c t] eqn:E; [done|].
    apply trimStart_fixed, (trim_head s). by rewrite E. }
  unfold trim. apply trimEnd_idem.
Qed.

Lemma truthy_trim s : truthy (Some (trim s)) = negb (allWhiteSpace s).
Proof.
  destruct (allWhiteSpace s) eqn:E.
  - apply trim_nil_iff in E. by rewrite E.
  - destruct (trim s) eqn:E'; [|done].
    apply trim_nil_iff in E'. congruence.
Qed.
End Trim.


(** ** The recursion of [generateCommitMessage] *)

Section Recursion.
Implicit Types (w : World) (apiKey diff : jsstring).

(** Two continuations that agree wherever [m] can leave them. *)
Lemma bind_ext {A B} (m : M A) (k1 k2 : A -> M B) w :
  (forall a w', m w = (Ok a, w') -> k1 a w' = k2 a w') ->
  bind m k1 w = bind m k2 w.
Proof. intros H. unfold bind. destruct (m w) as [[a|e] w']; auto. Qed.

Lemma fetch_Ok url prompt w r w' :
  fetch url prompt w = (Ok r, w') ->
  network w = Responds r :: network w' /\ w' = fetched url prompt w.
Proof.
  unfold fetch. destruct (network w) as [|[r0|e] rest] eqn:E;
    intros [= <- <-]; (split; [|done]).
  change (network (fetched url prompt w)) with (tail (network w)).
  by rewrite E.
Qed.

Lemma promptNewGeminiApiKey_eq w :
  promptNewGeminiApiKey w =
  (Ok (nextInput w),
   if truthy (nextInput w)
   then stored secretName (default [] (nextInput w)) (asked promptNewKey w)
   else asked promptNewKey w).
Proof.
  unfold promptNewGeminiApiKey, bind, showInputBox.
  by destruct (truthy (nextInput w)).
Qed.

(** The body only calls [self] on a world whose network script is one
    outcome shorter. *)
Lemma generateCommitMessageBody_ext self1 self2 apiKey diff w :
  (forall k d w', S (length (network w')) = length (network w) ->
                  self1 k d w' = self2 k d w') ->
  generateCommitMessageBody self1 apiKey diff w =
  generateCommitMessageBody self2 apiKey diff w.
Proof.
  intros Hself. unfold generateCommitMessageBody.
  apply bind_ext. intros r w1 [Hnet ->]%fetch_Ok.
  destruct (status r =? 429); [|reflexivity].
  apply bind_ext. intros choice w2 [= <- <-].
  case_bool_decide; [|reflexivity].
  apply bind_ext. intros newKey w3. rewrite promptNewGeminiApiKey_eq.
  intros [= <- <-].
  destruct (truthy (nextInput _)); [|done]. cbn [negb].
  apply Hself. by rewrite Hnet.
Qed.

Lemma generateCommitMessageN_fuel n m apiKey diff w :
  (length (network w) < n)%nat -> (length (network w) < m)%nat ->
  generateCommitMessageN n apiKey diff w =
  generateCommitMessageN m apiKey diff w.
Proof.
  revert m apiKey diff w.
  induction n as [|n IH]; intros m apiKey diff w Hn Hm; [lia|].
  destruct m as [|m]; [lia|]. simpl.
  apply generateCommitMessageBody_ext.
  intros k d w' Hlen. apply IH; lia.
Qed.

(** [generateCommitMessage] satisfies the equation the source writes. *)
Lemma generateCommitMessage_unfold apiKey diff w :
  generateCommitMessage apiKey diff w =
  generateCommitMessageBody generateCommitMessage apiKey diff w.
Proof.
  unfold generateCommitMessage at 1. simpl.
  apply generateCommitMessageBody_ext.
  intros k d w' Hlen. unfold generateCommitMessage.
  apply generateCommitMessageN_fuel; lia.
Qed.

(** What the body does with a 429, for any [self]. *)
Lemma generateCommitMessageBody_429 self apiKey diff w r rest :
  network w = Responds r :: rest -> status r = 429 ->
  generateCommitMessageBody self apiKey diff w =
  if bool_decide (nextChoice w = Some btnEnterNewKey) then
    if truthy (nextInput w)
    then self (default [] (nextInput w)) diff
           (retried apiKey diff (default [] (nextInput w)) w)
    else (Throw msgNoKeyProvided,
          asked promptNewKey
            (chose msgRateLimitDialog [btnEnterNewKey; btnCancel]
               (fetched (endpoint ++ apiKey) (promptFor diff) w)))
  else (Throw msgRateLimited,
        chose msgRateLimitDialog [btnEnterNewKey; btnCancel]
          (fetched (endpoint ++ apiKey) (promptFor diff) w)).
Proof.
  intros Hnet Hst. unfold generateCommitMessageBody, bind at 1, fetch.
  rewrite Hnet, Hst. cbn [N.eqb Pos.eqb].
  unfold bind at 1, showErrorMessageItems.
  change (nextChoice (fetched _ _ w)) with (nextChoice w).
  case_bool_decide; [|reflexivity].
  unfold bind. rewrite promptNewGeminiApiKey_eq.
  change (nextInput (chose _ _ (fetched _ _ w))) with (nextInput w).
  by destruct (truthy (nextInput w)).
Qed.

Lemma retryKey_Some w newKey :
  retryKey w = Some newKey ->
  exists r rest, network w = Responds r :: rest /\ status r = 429 /\
    nextChoice w = Some btnEnterNewKey /\ nextInput w = Some newKey /\
    newKey <> [].
Proof.
  unfold retryKey. destruct (network w) as [|[r|e] rest]; try discriminate.
  destruct (status r =? 429) eqn:Hst; [|discriminate].
  apply N.eqb_eq in Hst. rewrite andb_true_l.
  case_bool_decide as Hc; [|discriminate]. rewrite andb_true_l.
  destruct (nextInput w) as [[|c k]|] eqn:Hi; try discriminate.
  intros [= <-]. by exists r, rest.
Qed.

Lemma retryKey_None_429 w r rest :
  network w = Responds r :: rest -> status r = 429 -> retryKey w = None ->
  nextChoice w <> Some btnEnterNewKey \/
  nextChoice w = Some btnEnterNewKey /\ truthy (nextInput w) = false.
Proof.
  unfold retryKey. intros -> ->. rewrite N.eqb_refl, andb_true_l.
  case_bool_decide as Hc; [|by left]. rewrite andb_true_l.
  destruct (nextInput w) as [[|c k]|]; try discriminate; by right.
Qed.

(** The call retries with [newKey]. *)
Lemma generateCommitMessage_retry apiKey diff w newKey :
  retryKey w = Some newKey ->
  generateCommitMessage apiKey diff w =
  generateCommitMessage newKey diff (retried apiKey diff newKey w).
Proof.
  intros (r & rest & Hnet & Hst & Hc & Hi & Hne)%retryKey_Some.
  rewrite generateCommitMessage_unfold.
  rewrite (generateCommitMessageBody_429 _ _ _ _ _ _ Hnet Hst).
  rewrite bool_decide_true, Hi by done.
  by destruct newKey.
Qed.

(** Otherwise it is a single attempt: the body does not reach [self]. *)
Lemma generateCommitMessageBody_final self1 self2 apiKey diff w :
  retryKey w = None ->
  generateCommitMessageBody self1 apiKey diff w =
  generateCommitMessageBody self2 apiKey diff w.
Proof.
  intros H. unfold generateCommitMessageBody.
  apply bind_ext. intros r w1 [Hnet ->]%fetch_Ok.
  destruct (status r =? 429) eqn:Hst; [|reflexivity].
  apply N.eqb_eq in Hst.
  apply bind_ext. intros choice w2 [= <- <-].
  case_bool_decide as Hc; [|reflexivity].
  apply bind_ext. intros newKey w3. rewrite promptNewGeminiApiKey_eq.
  intros [= <- <-].
  destruct (retryKey_None_429 _ _ _ Hnet Hst H) as [Hc' | [_ Hi]].
  - by destruct Hc'.
  - change (nextInput (chose _ _ (fetched _ _ w))) with (nextInput w).
    by rewrite Hi.
Qed.

Lemma generateCommitMessage_final apiKey diff w :
  retryKey w = None ->
  generateCommitMessage apiKey diff w = attemptOnce apiKey diff w.
Proof.
  intros H. rewrite generateCommitMessage_unfold.
  by apply generateCommitMessageBody_final.
Qed.

Lemma retried_network apiKey diff newKey w :
  network (retried apiKey diff newKey w) = tail (network w).
Proof. reflexivity. Qed.

(** Induction along the retries of a call. *)
Lemma generateCommitMessage_ind diff
    (P : jsstring -> World -> Result jsstring * World -> Prop) :
  (forall apiKey w, retryKey w = None ->
     P apiKey w (attemptOnce apiKey diff w)) ->
  (forall apiKey w newKey, retryKey w = Some newKey ->
     P newKey (retried apiKey diff newKey w)
       (generateCommitMessage newKey diff (retried apiKey diff newKey w)) ->
     P apiKey w
       (generateCommitMessage newKey diff (retried apiKey diff newKey w))) ->
  forall apiKey w, P apiKey w (generateCommitMessage apiKey diff w).
Proof.
  intros Hfinal Hretry apiKey w.
  remember (length (network w)) as n eqn:Hn.
  revert apiKey w Hn. induction n as [|n IH]; intros apiKey w Hn.
  - assert (retryKey w = None) as Hr.
    { unfold retryKey.
      destruct (network w); [reflexivity | discriminate Hn]. }
    rewrite generateCommitMessage_final by done. by apply Hfinal.
  - destruct (retryKey w) as [newKey|] eqn:Hr.
    + rewrite (generateCommitMessage_retry _ _ _ _ Hr).
      apply Hretry; [done|]. apply IH.
      rewrite retried_network.
      destruct (network w); cbn [tail length] in *; lia.
    + rewrite generateCommitMessage_final by done. by apply Hfinal.
Qed.
End Recursion.


(** ** A single attempt *)

Section Attempt.
Context (apiKey diff : jsstring).
Implicit Types (w : World) (r : Response).

Local Abbreviation sent := (fetched (endpoint ++ apiKey) (promptFor diff)).
Local Abbreviation dialog := (chose msgRateLimitDialog [btnEnterNewKey; btnCancel]).

Lemma attemptOnce_exhausted w :
  network w = [] ->
  attemptOnce apiKey diff w = (Throw (lit "fetch failed"), sent w).
Proof.
  intros H. unfold attemptOnce, generateCommitMessageBody, bind, fetch.
  by rewrite H.
Qed.

Lemma attemptOnce_rejected w e rest :
  network w = Rejects e :: rest ->
  attemptOnce apiKey diff w = (Throw e, sent w).
Proof.
  intros H. unfold attemptOnce, generateCommitMessageBody, bind, fetch.
  by rewrite H.
Qed.

Lemma attemptOnce_declined w r rest :
  network w = Responds r :: rest -> status r = 429 ->
  nextChoice w <> Some btnEnterNewKey ->
  attemptOnce apiKey diff w = (Throw msgRateLimited, dialog (sent w)).
Proof.
  intros Hnet Hst Hc. unfold attemptOnce.
  rewrite (generateCommitMessageBody_429 _ _ _ _ _ _ Hnet Hst).
  by rewrite bool_decide_false.
Qed.

Lemma attemptOnce_no_key w r rest :
  network w = Responds r :: rest -> status r = 429 ->
  nextChoice w = Some btnEnterNewKey -> truthy (nextInput w) = false ->
  attemptOnce apiKey diff w =
  (Throw msgNoKeyProvided, asked promptNewKey (dialog (sent w))).
Proof.
  intros Hnet Hst Hc Hi. unfold attemptOnce.
  rewrite (generateCommitMessageBody_429 _ _ _ _ _ _ Hnet Hst).
  by rewrite bool_decide_true, Hi.
Qed.

Lemma attemptOnce_upstream w r rest :
  network w = Responds r :: rest -> status r <> 429 -> ok r = false ->
  attemptOnce apiKey diff w =
  (Throw (msgApiError ++ numberToString (status r)), sent w).
Proof.
  intros Hnet Hst Hok.
  unfold attemptOnce, generateCommitMessageBody, bind, fetch.
  rewrite Hnet. apply N.eqb_neq in Hst. by rewrite Hst, Hok.
Qed.

Lemma attemptOnce_bad_json w r rest e :
  network w = Responds r :: rest -> status r <> 429 -> ok r = true ->
  json r = Throw e ->
  attemptOnce apiKey diff w = (Throw e, sent w).
Proof.
  intros Hnet Hst Hok Hj.
  unfold attemptOnce, generateCommitMessageBody, bind, fetch, responseJson.
  rewrite Hnet. apply N.eqb_neq in Hst. by rewrite Hst, Hok, Hj.
Qed.

Lemma attemptOnce_no_parts w r rest data :
  network w = Responds r :: rest -> status r <> 429 -> ok r = true ->
  json r = Ok data -> (forall parts, partsOf data <> Some (JArr parts)) ->
  attemptOnce apiKey diff w =
  (Throw msgParseFailed, emit EvConsoleError (sent w)).
Proof.
  intros Hnet Hst Hok Hj Hp.
  unfold attemptOnce, generateCommitMessageBody, bind, fetch, responseJson.
  rewrite Hnet. apply N.eqb_neq in Hst. rewrite Hst, Hok, Hj.
  cbn [negb].
  destruct (partsOf data) as [[]|]; try reflexivity. by destruct (Hp items).
Qed.

Lemma attemptOnce_type_error w r rest data parts :
  network w = Responds r :: rest -> status r <> 429 -> ok r = true ->
  json r = Ok data -> partsOf data = Some (JArr parts) ->
  joinedText parts = None ->
  attemptOnce apiKey diff w = (Throw msgTypeError, sent w).
Proof.
  intros Hnet Hst Hok Hj Hp Ht.
  unfold attemptOnce, generateCommitMessageBody, bind, fetch, responseJson.
  rewrite Hnet. apply N.eqb_neq in Hst. by rewrite Hst, Hok, Hj, Hp, Ht.
Qed.

Lemma attemptOnce_text w r rest data parts joined :
  network w = Responds r :: rest -> status r <> 429 -> ok r = true ->
  json r = Ok data -> partsOf data = Some (JArr parts) ->
  joinedText parts = Some joined ->
  attemptOnce apiKey diff w =
  (if truthy (Some (trim joined)) then Ok (trim joined)
   else Throw msgEmpty, sent w).
Proof.
  intros Hnet Hst Hok Hj Hp Ht.
  unfold attemptOnce, generateCommitMessageBody, bind, fetch, responseJson.
  rewrite Hnet. apply N.eqb_neq in Hst. rewrite Hst, Hok, Hj, Hp, Ht.
  cbn [negb]. by destruct (trim joined).
Qed.

(** A message is returned only from a successful answer whose text is
    not blank. *)
Lemma attemptOnce_Ok_inv w m w' :
  attemptOnce apiKey diff w = (Ok m, w') ->
  exists r data parts joined,
    network w = Responds r :: network w' /\ w' = sent w /\
    status r <> 429 /\ ok r = true /\ json r = Ok data /\
    partsOf data = Some (JArr parts) /\ joinedText parts = Some joined /\
    m = trim joined /\ m <> [].
Proof.
  destruct (network w) as [|[r|e] rest] eqn:Hnet.
  - by rewrite attemptOnce_exhausted.
  - destruct (N.eq_dec (status r) 429) as [Hst|Hst].
    + destruct (decide (nextChoice w = Some btnEnterNewKey)) as [Hc|Hc].
      * unfold attemptOnce.
        rewrite (generateCommitMessageBody_429 _ _ _ _ _ _ Hnet Hst).
        rewrite bool_decide_true by done.
        by destruct (truthy (nextInput w)).
      * by rewrite (attemptOnce_declined _ _ _ Hnet Hst Hc).
    + destruct (ok r) eqn:Hok.
      2:{ by rewrite (attemptOnce_upstream _ _ _ Hnet Hst Hok). }
      destruct (json r) as [data|e] eqn:Hj.
      2:{ by rewrite (attemptOnce_bad_json _ _ _ _ Hnet Hst Hok Hj). }
      destruct (partsOf data) as [[| | | |parts|]|] eqn:Hp;
        try (rewrite (attemptOnce_no_parts _ _ _ _ Hnet Hst Hok Hj);
             [done | intros ?; congruence]).
      destruct (joinedText parts) as [joined|] eqn:Ht.
      2:{ by rewrite (attemptOnce_type_error _ _ _ _ _ Hnet Hst Hok Hj Hp Ht). }
      rewrite (attemptOnce_text _ _ _ _ _ _ Hnet Hst Hok Hj Hp Ht).
      destruct (trim joined) as [|c t] eqn:Etrim; [done|].
      intros [= <- <-]. exists r, data, parts, joined.
      change (network (sent w)) with (tail (network w)).
      by rewrite Hnet, Etrim.
  - by rewrite (attemptOnce_rejected _ _ _ Hnet).
Qed.
End Attempt.


(** ** The key, the diff and the command *)

Section Pipeline.
Implicit Types (w : World).

Lemma bind_Ok {A B} (m : M A) (k : A -> M B) w a w' :
  m w = (Ok a, w') -> bind m k w = k a w'.
Proof. unfold bind. by intros ->. Qed.

Lemma bind_Throw {A B} (m : M A) (k : A -> M B) w e w' :
  m w = (Throw e, w') -> bind m k w = (Throw e, w').
Proof. unfold bind. by intros ->. Qed.

Lemma getGeminiApiKey_eq w :
  getGeminiApiKey w =
  if truthy (secrets w !! secretName) then (Ok (secrets w !! secretName), w)
  else
    (Ok (nextInput w),
     if truthy (nextInput w)
     then emit (EvInformationMessage msgKeySaved)
            (stored secretName (default [] (nextInput w))
               (asked promptFirstKey w))
     else asked promptFirstKey w).
Proof.
  unfold getGeminiApiKey, secretsGet.
  rewrite (bind_Ok _ _ w (secrets w !! secretName) w) by reflexivity.
  destruct (truthy (secrets w !! secretName)); cbn [negb]; [reflexivity|].
  unfold bind, showInputBox.
  by destruct (truthy (nextInput w)).
Qed.

Lemma getGitDiff_eq w :
  getGitDiff w =
  match workspaceFolders w with
  | None | Some [] => (Throw msgNoWorkspace, w)
  | Some (cwd :: _) =>
      (match gitDiffCached w with
       | CannotRun => Throw msgDiffFailed
       | Runs code out errOut =>
           if (maxBuffer <? utf8Length out) || (maxBuffer <? utf8Length errOut)
           then Throw msgDiffFailed
           else if code =? 0 then Ok out else Throw msgDiffFailed
       end,
       emit (EvExec gitCommand cwd maxBuffer) w)
  end.
Proof.
  unfold getGitDiff, bind, getWorkspaceRoot, exec.
  destruct (workspaceFolders w) as [[|cwd fs]|]; try reflexivity.
  destruct (gitDiffCached w) as [|code out errOut]; [reflexivity|].
  destruct ((maxBuffer <? utf8Length out) || (maxBuffer <? utf8Length errOut));
    [reflexivity|].
  by destruct (code =? 0).
Qed.

Lemma getActiveRepository_eq w :
  getActiveRepository w =
  match gitRepositories w with
  | None => (Throw msgNoGitExtension, w)
  | Some [] => (Throw msgNoRepository, w)
  | Some (_ :: _) => (Ok 0%nat, w)
  end.
Proof.
  unfold getActiveRepository, bind, getGitApi.
  by destruct (gitRepositories w) as [[|repo repos]|].
Qed.

(** The handler, with its binds and its [catch] spelled out. *)
Lemma commatCommitGenerate_eq w :
  commatCommitGenerate w =
  let failed e w' :=
    (Ok tt, emit (EvErrorMessage (msgErrorPrefix ++ e) [] None) w') in
  match getGeminiApiKey w with
  | (Throw e, w1) => failed e w1
  | (Ok apiKey, w1) =>
      if truthy apiKey then
        match getGitDiff (emit (EvProgress progressTitle) w1) with
        | (Throw e, w2) => failed e w2
        | (Ok diff, w2) =>
            if allWhiteSpace diff
            then (Ok tt, emit (EvWarningMessage msgNoStaged) w2)
            else
              match generateCommitMessage (default [] apiKey) diff w2 with
              | (Throw e, w3) => failed e w3
              | (Ok rawMessage, w3) =>
                  match gitRepositories w3 with
                  | None => failed msgNoGitExtension w3
                  | Some [] => failed msgNoRepository w3
                  | Some repos =>
                      (Ok tt,
                       emit (EvCommitInput 0 rawMessage)
                         (setGitRepositories
                            (Some (<[0%nat:=rawMessage]> repos)) w3))
                  end
              end
        end
      else (Ok tt, w1)
  end.
Proof.
  unfold commatCommitGenerate, tryCatch.
  destruct (getGeminiApiKey w) as [[apiKey|e] w1] eqn:Hk.
  2:{ by rewrite (bind_Throw _ _ _ _ _ Hk). }
  rewrite (bind_Ok _ _ _ _ _ Hk).
  destruct (truthy apiKey); cbn [negb]; [|reflexivity].
  unfold withProgress.
  destruct (getGitDiff _) as [[diff|e] w2] eqn:Hd.
  2:{ by rewrite (bind_Throw _ _ _ _ _ Hd). }
  rewrite (bind_Ok _ _ _ _ _ Hd), truthy_trim, negb_involutive.
  destruct (allWhiteSpace diff); [reflexivity|].
  destruct (generateCommitMessage _ _ _) as [[rawMessage|e] w3] eqn:Hg.
  2:{ by rewrite (bind_Throw _ _ _ _ _ Hg). }
  rewrite (bind_Ok _ _ _ _ _ Hg).
  pose proof (getActiveRepository_eq w3) as Hrepo.
  destruct (gitRepositories w3) as [[|repo repos]|] eqn:Hr.
  - by rewrite (bind_Throw _ _ _ _ _ Hrepo).
  - rewrite (bind_Ok _ _ _ _ _ Hrepo). unfold setInputBoxValue.
    by rewrite Hr.
  - by rewrite (bind_Throw _ _ _ _ _ Hrepo).
Qed.
End Pipeline.


(** ** What a run logs *)

Lemma eventsSince_app w w' evs :
  log w' = log w ++ evs -> eventsSince w w' = evs.
Proof. unfold eventsSince. intros ->. apply drop_app_length. Qed.

Lemma count_app p evs1 evs2 :
  count p (evs1 ++ evs2) = (count p evs1 + count p evs2)%nat.
Proof. unfold count. by rewrite List.filter_app, length_app. Qed.

(** What [getGeminiApiKey] logs: nothing, the input box, or the input box,
    the store and the confirmation. *)
Lemma getGeminiApiKey_log w apiKey w1 :
  getGeminiApiKey w = (Ok apiKey, w1) ->
  exists evs, log w1 = log w ++ evs /\
    network w1 = network w /\ gitRepositories w1 = gitRepositories w /\
    workspaceFolders w1 = workspaceFolders w /\
    gitDiffCached w1 = gitDiffCached w /\
    networkCalls evs = 0%nat /\ count isErrorMessage evs = 0%nat /\
    count isCommitInput evs = 0%nat /\ count isExec evs = 0%nat.
Proof.
  rewrite getGeminiApiKey_eq.
  destruct (truthy (secrets w !! secretName)).
  - intros [= <- <-]. exists []. by rewrite app_nil_r.
  - destruct (truthy (nextInput w)); intros [= <- <-]; world_simpl.
    + eexists [_; _; _]. by rewrite <- !app_assoc.
    + by eexists [_].
Qed.

Lemma getGitDiff_Ok w diff w2 :
  getGitDiff w = (Ok diff, w2) ->
  exists cwd, w2 = emit (EvExec gitCommand cwd maxBuffer) w.
Proof.
  rewrite getGitDiff_eq.
  destruct (workspaceFolders w) as [[|cwd fs]|]; try done.
  intros [= _ <-]. by exists cwd.
Qed.

(** C7: when no credential exists (nothing is stored under the key, or the
    empty string) and the user dismisses the first-use input box,
    [getGeminiApiKey] returns [undefined] and the command ends there: the
    input box is the only thing that happened, so no error notification is
    shown, [git diff] is not run and no request is sent. *)
Theorem first_use_cancelled_aborts_silently w :
  truthy (secrets w !! secretName) = false ->
  nextInput w = None ->
  getGeminiApiKey w = (Ok None, asked promptFirstKey w) /\
  commatCommitGenerate w = (Ok tt, asked promptFirstKey w) /\
  eventsSince w (asked promptFirstKey w) = [EvInputBox promptFirstKey None] /\
  count isErrorMessage (eventsSince w (asked promptFirstKey w)) = 0%nat /\
  count isExec (eventsSince w (asked promptFirstKey w)) = 0%nat /\
  networkCalls (eventsSince w (asked promptFirstKey w)) = 0%nat /\
  secrets (asked promptFirstKey w) = secrets w /\
  gitRepositories (asked promptFirstKey w) = gitRepositories w.
Proof.
  intros Hs Hi.
  assert (getGeminiApiKey w = (Ok None, asked promptFirstKey w)) as Hk.
  { rewrite getGeminiApiKey_eq, Hs, Hi. done. }
  assert (eventsSince w (asked promptFirstKey w)
          = [EvInputBox promptFirstKey None]) as He.
  { apply eventsSince_app. world_simpl. by rewrite Hi. }
  split; [done|]. split.
  - by rewrite commatCommitGenerate_eq, Hk.
  - by rewrite He.
Qed.

(** C3: when the staged diff is white space only (the empty string
    included), the command stops at the warning "No staged changes found":
    the warning is the last thing that happens, no request is sent, no error
    notification is shown and nothing is written to the commit input box. *)
Theorem blank_diff_stops_with_warning w apiKey w1 diff w2 :
  getGeminiApiKey w = (Ok apiKey, w1) -> truthy apiKey = true ->
  getGitDiff (emit (EvProgress progressTitle) w1) = (Ok diff, w2) ->
  allWhiteSpace diff = true ->
  let w' := emit (EvWarningMessage msgNoStaged) w2 in
  commatCommitGenerate w = (Ok tt, w') /\
  last (eventsSince w w') = Some (EvWarningMessage msgNoStaged) /\
  networkCalls (eventsSince w w') = 0%nat /\
  count isErrorMessage (eventsSince w w') = 0%nat /\
  count isCommitInput (eventsSince w w') = 0%nat /\
  network w' = network w /\
  gitRepositories w' = gitRepositories w.
Proof.
  intros Hk Ht Hd Hb w'. split.
  { by rewrite commatCommitGenerate_eq, Hk, Ht, Hd, Hb. }
  destruct (getGeminiApiKey_log _ _ _ Hk)
    as (evs & Hlog & Hnet & Hrepo & _ & _ & Hf & He & Hc & _).
  destruct (getGitDiff_Ok _ _ _ Hd) as [cwd ->].
  assert (eventsSince w w' =
          evs ++ [EvProgress progressTitle; EvExec gitCommand cwd maxBuffer;
                  EvWarningMessage msgNoStaged]) as ->.
  { apply eventsSince_app. subst w'. world_simpl.
    by rewrite Hlog, <- !app_assoc. }
  unfold networkCalls in *. rewrite !count_app, Hf, He, Hc.
  split; [|done].
  by rewrite (last_app_cons evs [_; _] _).
Qed.


(** C9: with no workspace folder [getGitDiff] fails with "No workspace
    folder found" and runs nothing.  With one, it runs [git diff --cached]
    there and fails with "Failed to get staged changes" exactly when the
    command cannot be spawned, exits with a non-zero status, or writes more
    than [maxBuffer] bytes to its standard output or to its standard error;
    otherwise it returns the whole standard output unchanged, white space
    only or not, and what it returns is never a truncated output. *)
Theorem getGitDiff_failure_modes w :
  (forall folders, workspaceFolders w = folders ->
     folders = None \/ folders = Some [] ->
     getGitDiff w = (Throw msgNoWorkspace, w)) /\
  (forall cwd others, workspaceFolders w = Some (cwd :: others) ->
     let w' := emit (EvExec gitCommand cwd maxBuffer) w in
     (getGitDiff w = (Throw msgDiffFailed, w') <->
        gitDiffCached w = CannotRun \/
        exists code out errOut, gitDiffCached w = Runs code out errOut /\
          (code <> 0 \/ maxBuffer < utf8Length out \/
           maxBuffer < utf8Length errOut)) /\
     (forall out errOut, gitDiffCached w = Runs 0 out errOut ->
        utf8Length out <= maxBuffer -> utf8Length errOut <= maxBuffer ->
        getGitDiff w = (Ok out, w')) /\
     (forall out errOut, gitDiffCached w = Runs 0 out errOut ->
        utf8Length out <= maxBuffer -> utf8Length errOut <= maxBuffer ->
        allWhiteSpace out = true ->
        getGitDiff w = (Ok out, w')) /\
     (forall text w2, getGitDiff w = (Ok text, w2) ->
        w2 = w' /\
        exists errOut, gitDiffCached w = Runs 0 text errOut /\
          utf8Length text <= maxBuffer /\ utf8Length errOut <= maxBuffer)).
Proof.
  split.
  - intros folders Hf Hnone. rewrite getGitDiff_eq, Hf.
    by destruct Hnone as [-> | ->].
  - intros cwd others Hf w'. subst w'. rewrite getGitDiff_eq, Hf.
    assert (forall out errOut,
              utf8Length out <= maxBuffer -> utf8Length errOut <= maxBuffer ->
              (maxBuffer <? utf8Length out) || (maxBuffer <? utf8Length errOut)
              = false) as Hfit.
    { intros out errOut H1 H2. apply orb_false_intro; by apply N.ltb_ge. }
    split; [split|split; [|split]].
    + destruct (gitDiffCached w) as [|code out errOut]; [by left|].
      intros H. right. exists code, out, errOut. split; [done|].
      destruct (maxBuffer <? utf8Length out) eqn:Hout.
      { right. left. by apply N.ltb_lt. }
      destruct (maxBuffer <? utf8Length errOut) eqn:Herr.
      { right. right. by apply N.ltb_lt. }
      left. cbn [orb] in H.
      destruct (code =? 0) eqn:Hc; [done|]. by apply N.eqb_neq.
    + intros [-> | (code & out & errOut & -> & H)]; [done|].
      destruct ((maxBuffer <? utf8Length out) ||
                (maxBuffer <? utf8Length errOut)) eqn:Hmax; [done|].
      apply orb_false_elim in Hmax as [Hout Herr].
      apply N.ltb_ge in Hout, Herr.
      destruct H as [H | [H | H]]; [|lia..].
      apply N.eqb_neq in H. by rewrite H.
    + intros out errOut -> Hout Herr. by rewrite (Hfit _ _ Hout Herr).
    + intros out errOut -> Hout Herr _. by rewrite (Hfit _ _ Hout Herr).
    + intros text w2.
      destruct (gitDiffCached w) as [|code out errOut]; [done|].
      destruct ((maxBuffer <? utf8Length out) ||
                (maxBuffer <? utf8Length errOut)) eqn:Hmax; [done|].
      apply orb_false_elim in Hmax as [Hout Herr].
      apply N.ltb_ge in Hout, Herr.
      destruct (code =? 0) eqn:Hc; [|done].
      apply N.eqb_eq in Hc. intros [= <- <-]; subst.
      split; [done|]. by exists errOut.
Qed.

Lemma utf8Length_replicate n c :
  utf8Length (replicate n c) = N.of_nat n * utf8Width c.
Proof.
  induction n as [|n IH]; [done|].
  cbn [replicate utf8Length]. rewrite IH. lia.
Qed.

(** An exit with 0 and a short diff do not save the call when the standard
    error alone is over the bound. *)
Lemma getGitDiff_stderr_over_bound :
  getGitDiff wGitNoisy =
  (Throw msgDiffFailed,
   emit (EvExec gitCommand (lit "/repo") maxBuffer) wGitNoisy).
Proof.
  rewrite getGitDiff_eq.
  change (workspaceFolders wGitNoisy) with (Some [lit "/repo"]).
  change (gitDiffCached wGitNoisy)
    with (Runs 0 sampleDiff (replicate (S (N.to_nat maxBuffer)) 97)).
  cbv iota beta.
  assert ((maxBuffer <? utf8Length (replicate (S (N.to_nat maxBuffer)) 97))
          = true) as ->.
  { apply N.ltb_lt. rewrite utf8Length_replicate.
    change (utf8Width 97) with 1. lia. }
  by rewrite orb_true_r.
Qed.


(** ** Failures of the request *)

Section Literals.
#[local] Transparent lit numberToString.

Lemma lit_inj s1 s2 : lit s1 = lit s2 -> s1 = s2.
Proof.
  unfold lit. revert s2.
  induction s1 as [|a s1 IH]; intros [|b s2];
    cbn [String.list_ascii_of_string]; rewrite ?fmap_cons, ?fmap_nil.
  - reflexivity.
  - discriminate.
  - discriminate.
  - intros [= Hab Hs]. f_equal; [|by apply IH].
    rewrite <- (Ascii.ascii_N_embedding a), <- (Ascii.ascii_N_embedding b).
    by rewrite Hab.
Qed.

(** The message of an upstream error determines the status. *)
Lemma numberToString_inj n1 n2 :
  numberToString n1 = numberToString n2 -> n1 = n2.
Proof. unfold numberToString. intros H%lit_inj. by apply (inj pretty) in H. Qed.
End Literals.

Section Failures.
Context (apiKey diff : jsstring).
Implicit Types (w : World) (r : Response).

Local Abbreviation sent := (fetched (endpoint ++ apiKey) (promptFor diff)).
Local Abbreviation dialog :=
  (chose msgRateLimitDialog [btnEnterNewKey; btnCancel]).
Local Abbreviation notified e :=
  (emit (EvErrorMessage (msgErrorPrefix ++ e) [] None)).

(** The command, once the key and a diff that is not blank are there. *)
Lemma commatCommitGenerate_failed w0 w1 w e w' :
  getGeminiApiKey w0 = (Ok (Some apiKey), w1) -> apiKey <> [] ->
  getGitDiff (emit (EvProgress progressTitle) w1) = (Ok diff, w) ->
  allWhiteSpace diff = false ->
  generateCommitMessage apiKey diff w = (Throw e, w') ->
  commatCommitGenerate w0 = (Ok tt, notified e w').
Proof.
  intros Hk Hne Hd Hb Hg.
  rewrite commatCommitGenerate_eq, Hk. simpl.
  destruct apiKey; [done|]. by rewrite Hd, Hb, Hg.
Qed.

(** C5: when the answer has a status other than 429 and is not a success,
    [generateCommitMessage] throws "Gemini API error: " followed by that
    status, and the status can be read back from the message.  Nothing but
    the request happened: the secret storage and the commit input box are
    as before.  The command then shows the error and writes no message. *)
Theorem upstream_error_surfaces_status w r rest :
  network w = Responds r :: rest -> status r <> 429 -> ok r = false ->
  let failure := msgApiError ++ numberToString (status r) in
  generateCommitMessage apiKey diff w = (Throw failure, sent w) /\
  (forall n, msgApiError ++ numberToString n = failure -> n = status r) /\
  eventsSince w (sent w) = [EvFetch (endpoint ++ apiKey) (promptFor diff)] /\
  secrets (sent w) = secrets w /\
  gitRepositories (sent w) = gitRepositories w /\
  (forall w0 w1,
     getGeminiApiKey w0 = (Ok (Some apiKey), w1) -> apiKey <> [] ->
     getGitDiff (emit (EvProgress progressTitle) w1) = (Ok diff, w) ->
     allWhiteSpace diff = false ->
     let w' := notified failure (sent w) in
     commatCommitGenerate w0 = (Ok tt, w') /\
     count isCommitInput (eventsSince w0 w') = 0%nat /\
     gitRepositories w' = gitRepositories w0 /\
     secrets w' = secrets w1 /\
     (truthy (secrets w0 !! secretName) = true -> secrets w' = secrets w0)).
Proof.
  intros Hnet Hst Hok failure.
  assert (generateCommitMessage apiKey diff w = (Throw failure, sent w))
    as Hg.
  { rewrite generateCommitMessage_final.
    - by apply attemptOnce_upstream with rest.
    - unfold retryKey. rewrite Hnet.
      apply N.eqb_neq in Hst. by rewrite Hst. }
  split; [done|]. split.
  { intros n H. by apply app_inv_head, numberToString_inj in H. }
  split; [by apply eventsSince_app|].
  split; [done|]. split; [done|].
  intros w0 w1 Hk Hne Hd Hb w'. split.
  { by apply commatCommitGenerate_failed with w1 w. }
  destruct (getGeminiApiKey_log _ _ _ Hk)
    as (evs & Hlog & _ & Hrepo & _ & _ & _ & _ & Hc & _).
  destruct (getGitDiff_Ok _ _ _ Hd) as [cwd ->].
  split.
  { rewrite (eventsSince_app w0 w'
               (evs ++ [EvProgress progressTitle;
                        EvExec gitCommand cwd maxBuffer;
                        EvFetch (endpoint ++ apiKey) (promptFor diff);
                        EvErrorMessage (msgErrorPrefix ++ failure) [] None])).
    - by rewrite count_app, Hc.
    - subst w'. world_simpl. by rewrite Hlog, <- !app_assoc. }
  split; [done|]. split; [done|].
  intros Hs. rewrite getGeminiApiKey_eq, Hs in Hk. by injection Hk as _ <-.
Qed.

(** C6: when the answer is a 429 and the user does not supply a new key,
    [generateCommitMessage] throws: "Gemini API rate limit exceeded" when
    the user presses "Cancel" or dismisses the dialog, "No API key
    provided" when the user asks to enter a key and then leaves the input
    box empty or dismisses it.  It never returns a message, and the
    command shows the error and writes nothing to the commit input box. *)
Theorem rate_limit_without_new_key_fails w r rest :
  network w = Responds r :: rest -> status r = 429 ->
  (nextChoice w <> Some btnEnterNewKey ->
     generateCommitMessage apiKey diff w =
     (Throw msgRateLimited, dialog (sent w))) /\
  (nextChoice w = Some btnEnterNewKey -> truthy (nextInput w) = false ->
     generateCommitMessage apiKey diff w =
     (Throw msgNoKeyProvided, asked promptNewKey (dialog (sent w)))) /\
  (retryKey w = None ->
     exists e w',
       generateCommitMessage apiKey diff w = (Throw e, w') /\
       (e = msgRateLimited \/ e = msgNoKeyProvided) /\
       secrets w' = secrets w /\ networkCalls (eventsSince w w') = 1%nat /\
       forall w0 w1,
         getGeminiApiKey w0 = (Ok (Some apiKey), w1) -> apiKey <> [] ->
         getGitDiff (emit (EvProgress progressTitle) w1) = (Ok diff, w) ->
         allWhiteSpace diff = false ->
         commatCommitGenerate w0 = (Ok tt, notified e w') /\
         gitRepositories (notified e w') = gitRepositories w0 /\
         count isCommitInput (eventsSince w0 (notified e w')) = 0%nat).
Proof.
  intros Hnet Hst.
  assert (nextChoice w <> Some btnEnterNewKey ->
          generateCommitMessage apiKey diff w =
          (Throw msgRateLimited, dialog (sent w))) as Hdecl.
  { intros Hc. rewrite generateCommitMessage_final.
    - by apply attemptOnce_declined with r rest.
    - unfold retryKey. rewrite Hnet, bool_decide_false by done.
      by rewrite andb_false_r. }
  assert (nextChoice w = Some btnEnterNewKey ->
          truthy (nextInput w) = false ->
          generateCommitMessage apiKey diff w =
          (Throw msgNoKeyProvided, asked promptNewKey (dialog (sent w))))
    as Hnokey.
  { intros Hc Hi. rewrite generateCommitMessage_final.
    - by apply attemptOnce_no_key with r rest.
    - unfold retryKey. by rewrite Hnet, Hi, andb_false_r. }
  split; [done|]. split; [done|].
  intros Hr.
  assert (exists e w' evs,
            generateCommitMessage apiKey diff w = (Throw e, w') /\
            (e = msgRateLimited \/ e = msgNoKeyProvided) /\
            secrets w' = secrets w /\
            gitRepositories w' = gitRepositories w /\
            log w' = log w ++ EvFetch (endpoint ++ apiKey) (promptFor diff)
                                :: evs /\
            networkCalls evs = 0%nat /\ count isCommitInput evs = 0%nat)
    as (e & w' & evs & Hg & He & Hs & Hrepo' & Hlog' & Hf & Hci).
  { destruct (decide (nextChoice w = Some btnEnterNewKey)) as [Hc|Hc].
    - assert (truthy (nextInput w) = false) as Hi.
      { unfold retryKey in Hr. rewrite Hnet in Hr.
        apply N.eqb_eq in Hst. rewrite Hst, bool_decide_true in Hr by done.
        simpl in Hr. destruct (truthy (nextInput w)) eqn:E; [|done].
        by destruct (nextInput w). }
      eexists _, _, [_; _]. split; [by apply Hnokey|].
      split; [by right|]. world_simpl. by rewrite <- !app_assoc.
    - eexists _, _, [_]. split; [by apply Hdecl|].
      split; [by left|]. world_simpl. by rewrite <- !app_assoc. }
  exists e, w'. split; [done|]. split; [done|]. split; [done|]. split.
  { rewrite (eventsSince_app _ _ _ Hlog'). unfold networkCalls, count in *.
    cbn [List.filter isFetch length]. by rewrite Hf. }
  intros w0 w1 Hk Hne Hd Hb. split.
  { by apply commatCommitGenerate_failed with w1 w. }
  destruct (getGeminiApiKey_log _ _ _ Hk)
    as (evs0 & Hlog & _ & Hrepo & _ & _ & _ & _ & Hc & _).
  destruct (getGitDiff_Ok _ _ _ Hd) as [cwd ->].
  split; [world_simpl; by rewrite Hrepo', Hrepo|].
  rewrite (eventsSince_app w0 _
             (evs0 ++ [EvProgress progressTitle;
                       EvExec gitCommand cwd maxBuffer;
                       EvFetch (endpoint ++ apiKey) (promptFor diff)]
                   ++ evs ++ [EvErrorMessage (msgErrorPrefix ++ e) [] None])).
  - by rewrite !count_app, Hc, Hci.
  - world_simpl. rewrite Hlog', Hlog. by rewrite <- !app_assoc.
Qed.
End Failures.

(** ** The message *)

Lemma joinWith_nil_cons s xs :
  joinWith [] (Some s :: xs) = (s ++.) <$> joinWith [] xs.
Proof.
  destruct xs as [|x xs]; simpl.
  - by rewrite app_nil_r.
  - by destruct x, (joinWith [] xs); try destruct xs.
Qed.

(** Text segments that are strings are concatenated in order. *)
Lemma joinedText_textParts segments :
  joinedText (textPart <$> segments) = Some (concat segments).
Proof.
  unfold joinedText, textsOf.
  induction segments as [|s segments IH]; [done|].
  rewrite fmap_cons. rewrite (fmap_cons _ (textPart s)).
  change (optChain (Some (textPart s)) (getProp (lit "text")))
    with (Some (JStr s)).
  destruct s as [|c s].
  - rewrite filter_cons_False by (simpl; done). exact IH.
  - rewrite filter_cons_True by done.
    rewrite fmap_cons. change (joinElement (Some (JStr (c :: s))))
      with (Some (c :: s)).
    by rewrite joinWith_nil_cons, IH.
Qed.

(** With a single part the joined text is that part's text. *)
Lemma joinedText_single data p s :
  partsOf data = Some (JArr [p]) -> firstTextSegment data = Some s ->
  joinedText [p] = Some s.
Proof.
  unfold firstTextSegment. intros ->.
  destruct p as [| | | | |fields]; try done. simpl.
  unfold joinedText, textsOf. simpl.
  destruct (ownProperty (lit "text") fields) as [[| | |t| |]|]; try done.
  intros [= ->]. destruct s as [|c s].
  - by rewrite filter_cons_False by (simpl; done).
  - by rewrite filter_cons_True by done.
Qed.

Section Message.
Context (apiKey diff : jsstring).
Implicit Types (w : World) (r : Response).

Local Abbreviation sent := (fetched (endpoint ++ apiKey) (promptFor diff)).

Lemma retryKey_not_429 w r rest :
  network w = Responds r :: rest -> status r <> 429 -> retryKey w = None.
Proof.
  intros Hnet Hst. unfold retryKey. rewrite Hnet.
  apply N.eqb_neq in Hst. by rewrite Hst.
Qed.

(** The message comes from the last answer that was fetched. *)
Lemma generateCommitMessage_Ok_inv :
  forall key w m w',
  generateCommitMessage key diff w = (Ok m, w') ->
  exists earlier r data parts joined,
    network w = earlier ++ Responds r :: network w' /\
    status r <> 429 /\ ok r = true /\ json r = Ok data /\
    partsOf data = Some (JArr parts) /\ joinedText parts = Some joined /\
    m = trim joined /\ m <> [].
Proof.
  intros key w.
  apply (generateCommitMessage_ind diff (fun key w res =>
    forall m w', res = (Ok m, w') ->
    exists earlier r data parts joined,
      network w = earlier ++ Responds r :: network w' /\
      status r <> 429 /\ ok r = true /\ json r = Ok data /\
      partsOf data = Some (JArr parts) /\ joinedText parts = Some joined /\
      m = trim joined /\ m <> [])); clear key w.
  - intros key w _ m w' H.
    destruct (attemptOnce_Ok_inv _ _ _ _ _ H)
      as (r & data & parts & joined & Hnet & _ & Hrest).
    by exists [], r, data, parts, joined.
  - intros key w newKey Hr IH m w' H.
    destruct (IH _ _ H) as (earlier & r & data & parts & joined & Hnet & Hrest).
    destruct (retryKey_Some _ _ Hr) as (r0 & rest & Hnet0 & _).
    rewrite retried_network, Hnet0 in Hnet. simpl in Hnet.
    exists (Responds r0 :: earlier), r, data, parts, joined.
    by rewrite Hnet0, Hnet.
Qed.

(** C4: a message that [generateCommitMessage] returns is the trimmed
    text joined from the parts of the last answer fetched; it is not
    empty and neither starts nor ends with white space.  When the answer
    is a success but [parts] is not an array, the call throws "Failed to
    generate commit message"; when the joined text is blank, or no part
    has a text, it throws "Empty commit message from Gemini". *)
Theorem returned_message_is_trimmed_and_not_empty w :
  (forall m w', generateCommitMessage apiKey diff w = (Ok m, w') ->
     exists earlier r data parts joined,
       network w = earlier ++ Responds r :: network w' /\
       json r = Ok data /\ partsOf data = Some (JArr parts) /\
       joinedText parts = Some joined /\
       m = trim joined /\ m <> [] /\
       (forall c, head m = Some c -> isWhiteSpace c = false) /\
       (forall c, last m = Some c -> isWhiteSpace c = false)) /\
  (forall r rest data,
     network w = Responds r :: rest -> status r <> 429 -> ok r = true ->
     json r = Ok data ->
     ((forall parts, partsOf data <> Some (JArr parts)) ->
        generateCommitMessage apiKey diff w =
        (Throw msgParseFailed, emit EvConsoleError (sent w))) /\
     (forall parts joined,
        partsOf data = Some (JArr parts) -> joinedText parts = Some joined ->
        allWhiteSpace joined = true ->
        generateCommitMessage apiKey diff w = (Throw msgEmpty, sent w)) /\
     (forall parts,
        partsOf data = Some (JArr parts) -> textsOf parts = [] ->
        generateCommitMessage apiKey diff w = (Throw msgEmpty, sent w))).
Proof.
  split.
  - intros m w' H.
    destruct (generateCommitMessage_Ok_inv _ _ _ _ H)
      as (earlier & r & data & parts & joined
          & Hnet & _ & _ & Hj & Hp & Ht & -> & Hne).
    exists earlier, r, data, parts, joined.
    repeat split; try done.
    + apply trim_head.
    + apply trim_last.
  - intros r rest data Hnet Hst Hok Hj.
    rewrite generateCommitMessage_final
      by (by apply retryKey_not_429 with r rest).
    assert (forall parts joined,
              partsOf data = Some (JArr parts) ->
              joinedText parts = Some joined ->
              allWhiteSpace joined = true ->
              attemptOnce apiKey diff w = (Throw msgEmpty, sent w)) as Hblank.
    { intros parts joined Hp Ht Hb.
      rewrite (attemptOnce_text _ _ _ _ _ _ _ _ Hnet Hst Hok Hj Hp Ht).
      by rewrite truthy_trim, Hb. }
    split; [by apply attemptOnce_no_parts with r rest|].
    split; [done|].
    intros parts Hp Hnone. apply (Hblank parts []); [done| |done].
    unfold joinedText. by rewrite Hnone.
Qed.

(** C2, as the code has it: on a successful answer the message is the
    trimmed concatenation, in order, of the text of every part of the
    first candidate that has one (parts whose text is missing or empty
    contribute nothing).  Parts whose texts are strings [segments] give
    [trim (concat segments)]; with a single part this is the trimmed first
    text segment. *)
Theorem message_joins_every_text_segment w r rest data parts joined :
  network w = Responds r :: rest -> status r <> 429 -> ok r = true ->
  json r = Ok data -> partsOf data = Some (JArr parts) ->
  joinedText parts = Some joined -> allWhiteSpace joined = false ->
  generateCommitMessage apiKey diff w = (Ok (trim joined), sent w) /\
  (forall segments, parts = textPart <$> segments ->
     joined = concat segments) /\
  (forall p s, parts = [p] -> firstTextSegment data = Some s -> joined = s).
Proof.
  intros Hnet Hst Hok Hj Hp Ht Hb. split; [|split].
  - rewrite generateCommitMessage_final
      by (by apply retryKey_not_429 with r rest).
    rewrite (attemptOnce_text _ _ _ _ _ _ _ _ Hnet Hst Hok Hj Hp Ht).
    by rewrite truthy_trim, Hb.
  - intros segments ->. rewrite joinedText_textParts in Ht. congruence.
  - intros p s -> Hs. rewrite (joinedText_single _ _ _ Hp Hs) in Ht.
    congruence.
Qed.
End Message.

(** ** The secret storage along a run *)

Lemma count_cons p e evs :
  count p (e :: evs) = ((if p e then 1 else 0) + count p evs)%nat.
Proof. unfold count. cbn [List.filter]. by destruct (p e). Qed.

Section Storage.
Context (diff : jsstring).
Implicit Types (w : World) (apiKey : jsstring).

Local Abbreviation sent apiKey :=
  (fetched (endpoint ++ apiKey) (promptFor diff)).
Local Abbreviation dialog :=
  (chose msgRateLimitDialog [btnEnterNewKey; btnCancel]).

(** Where a single attempt that does not retry leaves the world. *)
Lemma attemptOnce_world apiKey w :
  retryKey w = None ->
  let w' := (attemptOnce apiKey diff w).2 in
  w' = sent apiKey w \/ w' = dialog (sent apiKey w) \/
  w' = asked promptNewKey (dialog (sent apiKey w)) \/
  w' = emit EvConsoleError (sent apiKey w).
Proof.
  intros Hr. cbv zeta.
  destruct (network w) as [|[r|e] rest] eqn:Hnet.
  - rewrite attemptOnce_exhausted by done. by left.
  - destruct (N.eq_dec (status r) 429) as [Hst|Hst].
    + destruct (retryKey_None_429 _ _ _ Hnet Hst Hr) as [Hc | [Hc Hi]].
      * rewrite (attemptOnce_declined _ _ _ _ _ Hnet Hst Hc). by right; left.
      * rewrite (attemptOnce_no_key _ _ _ _ _ Hnet Hst Hc Hi).
        by right; right; left.
    + destruct (ok r) eqn:Hok.
      2:{ rewrite (attemptOnce_upstream _ _ _ _ _ Hnet Hst Hok). by left. }
      destruct (json r) as [data|e] eqn:Hj.
      2:{ rewrite (attemptOnce_bad_json _ _ _ _ _ _ Hnet Hst Hok Hj).
          by left. }
      destruct (partsOf data) as [[| | | |parts|]|] eqn:Hp;
        try (rewrite (attemptOnce_no_parts _ _ _ _ _ _ Hnet Hst Hok Hj);
             [by right; right; right | intros ?; congruence]).
      destruct (joinedText parts) as [joined|] eqn:Ht.
      * rewrite (attemptOnce_text _ _ _ _ _ _ _ _ Hnet Hst Hok Hj Hp Ht).
        by left.
      * rewrite (attemptOnce_type_error _ _ _ _ _ _ _ Hnet Hst Hok Hj Hp Ht).
        by left.
  - rewrite (attemptOnce_rejected _ _ _ _ _ Hnet). by left.
Qed.

(** A single attempt that does not retry sends one request, stores
    nothing and writes nothing. *)
Lemma attemptOnce_frame apiKey w :
  retryKey w = None ->
  let w' := (attemptOnce apiKey diff w).2 in
  exists evs,
    log w' = log w ++ EvFetch (endpoint ++ apiKey) (promptFor diff) :: evs /\
    secrets w' = secrets w /\ gitRepositories w' = gitRepositories w /\
    networkCalls evs = 0%nat /\ count isSecretStore evs = 0%nat /\
    count isCommitInput evs = 0%nat.
Proof.
  intros Hr w'.
  destruct (attemptOnce_world apiKey w Hr) as [H | [H | [H | H]]];
    fold w' in H; rewrite H; world_simpl.
  - by exists [].
  - eexists [_]. by rewrite <- !app_assoc.
  - eexists [_; _]. by rewrite <- !app_assoc.
  - eexists [_]. by rewrite <- !app_assoc.
Qed.

Lemma retried_log apiKey w newKey :
  retryKey w = Some newKey ->
  log (retried apiKey diff newKey w) =
  log w ++ EvFetch (endpoint ++ apiKey) (promptFor diff)
        :: replacement newKey.
Proof.
  intros (r & rest & _ & _ & Hc & Hi & _)%retryKey_Some.
  unfold replacement. world_simpl.
  change (nextChoice (fetched _ _ w)) with (nextChoice w).
  change (nextInput (chose _ _ (fetched _ _ w))) with (nextInput w).
  by rewrite Hc, Hi, <- !app_assoc.
Qed.

(** What a call does to the log, to the secret storage and to the commit
    input box: it starts with a request; the storage is as before, or it
    holds the key of the last replacement; nothing is written. *)
Lemma generateCommitMessage_run apiKey w :
  let w' := (generateCommitMessage apiKey diff w).2 in
  exists evs,
    log w' = log w ++ EvFetch (endpoint ++ apiKey) (promptFor diff) :: evs /\
    gitRepositories w' = gitRepositories w /\
    count isCommitInput evs = 0%nat /\
    (secrets w' = secrets w /\ count isSecretStore evs = 0%nat \/
     exists v before after,
       v <> [] /\ secrets w' = <[secretName := v]> (secrets w) /\
       evs = before ++ replacement v ++ after /\
       count isSecretStore after = 0%nat).
Proof.
  cbv zeta.
  apply (generateCommitMessage_ind diff (fun apiKey w res =>
    exists evs,
      log res.2 = log w ++ EvFetch (endpoint ++ apiKey) (promptFor diff)
                        :: evs /\
      gitRepositories res.2 = gitRepositories w /\
      count isCommitInput evs = 0%nat /\
      (secrets res.2 = secrets w /\ count isSecretStore evs = 0%nat \/
       exists v before after,
         v <> [] /\ secrets res.2 = <[secretName := v]> (secrets w) /\
         evs = before ++ replacement v ++ after /\
         count isSecretStore after = 0%nat))); clear apiKey w.
  - intros apiKey w Hr.
    destruct (attemptOnce_frame apiKey w Hr)
      as (evs & Hlog & Hs & Hrepo & _ & Hst & Hci).
    exists evs. repeat split; try done. by left.
  - intros apiKey w newKey Hr (evs & Hlog & Hrepo & Hci & Hs).
    pose proof (retried_log apiKey w newKey Hr) as Hlog3.
    destruct (retryKey_Some _ _ Hr) as (_ & _ & _ & _ & _ & _ & Hne).
    exists (replacement newKey
            ++ EvFetch (endpoint ++ newKey) (promptFor diff) :: evs).
    split; [|split; [|split]].
    + rewrite Hlog, Hlog3, <- !app_assoc. reflexivity.
    + by rewrite Hrepo.
    + by rewrite count_app, count_cons, Hci.
    + right. destruct Hs as [[Hs Hst] | (v & before & after & Hv & Hs & -> & Hst)].
      * exists newKey, [],
          (EvFetch (endpoint ++ newKey) (promptFor diff) :: evs).
        split; [done|]. split; [by rewrite Hs|]. split; [done|].
        by rewrite count_cons, Hst.
      * exists v,
          (replacement newKey
           ++ EvFetch (endpoint ++ newKey) (promptFor diff) :: before),
          after.
        split; [done|]. split.
        { rewrite Hs. world_simpl. by rewrite insert_insert_eq. }
        split; [|done]. by rewrite <- !app_assoc.
Qed.
(** Every replacement adds one request: a call that retries sends one
    request more than the retry does. *)
Lemma one_more_request_per_retry apiKey w newKey :
  retryKey w = Some newKey ->
  let w3 := retried apiKey diff newKey w in
  networkCalls (eventsSince w (generateCommitMessage apiKey diff w).2) =
  S (networkCalls (eventsSince w3 (generateCommitMessage newKey diff w3).2)).
Proof.
  intros Hr w3. rewrite (generateCommitMessage_retry _ _ _ _ Hr). fold w3.
  destruct (generateCommitMessage_run newKey w3) as (evs & Hlog & _).
  rewrite (eventsSince_app _ _ _ Hlog).
  unfold w3 in Hlog. rewrite (retried_log apiKey w newKey Hr) in Hlog.
  rewrite <- app_assoc in Hlog. fold w3 in Hlog.
  rewrite (eventsSince_app _ _ _ Hlog). unfold networkCalls.
  by rewrite count_app, !count_cons.
Qed.

(** Without a retry the call sends exactly one request. *)
Lemma one_request_without_retry apiKey w :
  retryKey w = None ->
  networkCalls (eventsSince w (generateCommitMessage apiKey diff w).2)
  = 1%nat.
Proof.
  intros Hr. rewrite generateCommitMessage_final by done.
  destruct (attemptOnce_frame apiKey w Hr) as (evs & Hlog & _ & _ & Hf & _).
  rewrite (eventsSince_app _ _ _ Hlog). unfold networkCalls in *.
  by rewrite count_cons, Hf.
Qed.

(** With one retry that is not followed by another it sends exactly two. *)
Lemma two_requests_with_one_retry apiKey w newKey :
  retryKey w = Some newKey ->
  retryKey (retried apiKey diff newKey w) = None ->
  networkCalls (eventsSince w (generateCommitMessage apiKey diff w).2)
  = 2%nat.
Proof.
  intros Hr Hr3.
  rewrite (generateCommitMessage_retry _ _ _ _ Hr).
  rewrite generateCommitMessage_final by done.
  destruct (attemptOnce_frame newKey _ Hr3) as (evs & Hlog & _ & _ & Hf & _).
  rewrite (retried_log apiKey w newKey Hr) in Hlog.
  rewrite <- app_assoc in Hlog.
  rewrite (eventsSince_app _ _ _ Hlog). unfold networkCalls in *.
  by rewrite count_app, !count_cons, Hf.
Qed.
End Storage.

Section Replacement.
Context (diff : jsstring).
Implicit Types (w : World) (apiKey : jsstring).

Local Abbreviation sent apiKey :=
  (fetched (endpoint ++ apiKey) (promptFor diff)).
Local Abbreviation dialog :=
  (chose msgRateLimitDialog [btnEnterNewKey; btnCancel]).

(** C10: when the answer is a 429 and the user supplies a non-empty new
    key, the call continues as the retry from a world in which the key is
    already in the secret storage; in the log the store comes before the
    retried request.  The storage still holds the key after the call
    whenever the retried attempt is not itself followed by another
    replacement, in particular when the retried request fails with an
    upstream error, or is rate limited again and the user declines; in
    every case it holds this key or the key of a later replacement. *)
Theorem replacement_key_is_stored_before_retry apiKey w newKey :
  retryKey w = Some newKey ->
  let w3 := retried apiKey diff newKey w in
  let w' := (generateCommitMessage apiKey diff w).2 in
  generateCommitMessage apiKey diff w = generateCommitMessage newKey diff w3 /\
  secrets w3 = <[secretName := newKey]> (secrets w) /\
  (exists later,
     eventsSince w w' =
     EvFetch (endpoint ++ apiKey) (promptFor diff) :: replacement newKey ++
     EvFetch (endpoint ++ newKey) (promptFor diff) :: later) /\
  (retryKey w3 = None -> secrets w' !! secretName = Some newKey) /\
  (forall r rest,
     network w3 = Responds r :: rest -> status r <> 429 -> ok r = false ->
     generateCommitMessage apiKey diff w =
     (Throw (msgApiError ++ numberToString (status r)), sent newKey w3) /\
     secrets w' !! secretName = Some newKey) /\
  (forall r rest,
     network w3 = Responds r :: rest -> status r = 429 ->
     nextChoice w3 <> Some btnEnterNewKey ->
     generateCommitMessage apiKey diff w =
     (Throw msgRateLimited, dialog (sent newKey w3)) /\
     secrets w' !! secretName = Some newKey) /\
  (secrets w' !! secretName = Some newKey \/
   exists v before after,
     v <> [] /\ secrets w' !! secretName = Some v /\
     eventsSince w3 w' =
     EvFetch (endpoint ++ newKey) (promptFor diff)
       :: before ++ replacement v ++ after).
Proof.
  intros Hr w3 w'.
  assert (generateCommitMessage apiKey diff w
          = generateCommitMessage newKey diff w3) as Hretry
    by by apply generateCommitMessage_retry.
  assert (secrets w3 !! secretName = Some newKey) as Hstored
    by apply lookup_insert_eq.
  assert (retryKey w3 = None -> secrets w' !! secretName = Some newKey)
    as Hkept.
  { intros Hr3. subst w'. rewrite Hretry, generateCommitMessage_final by done.
    destruct (attemptOnce_frame diff newKey w3 Hr3) as (evs & _ & -> & _).
    exact Hstored. }
  split; [done|]. split; [done|]. split; [|split; [done|split; [|split]]].
  - destruct (generateCommitMessage_run diff newKey w3)
      as (later & Hlog & _).
    exists later. apply eventsSince_app. subst w'.
    rewrite Hretry, Hlog. unfold w3.
    by rewrite (retried_log diff apiKey w newKey Hr), <- !app_assoc.
  - intros r rest Hnet Hst Hok.
    assert (retryKey w3 = None) as Hr3 by by apply retryKey_not_429 with r rest.
    split; [|by apply Hkept].
    rewrite Hretry, generateCommitMessage_final by done.
    by apply attemptOnce_upstream with rest.
  - intros r rest Hnet Hst Hc.
    assert (retryKey w3 = None) as Hr3.
    { unfold retryKey. rewrite Hnet, bool_decide_false by done.
      by rewrite andb_false_r. }
    split; [|by apply Hkept].
    rewrite Hretry, generateCommitMessage_final by done.
    by apply attemptOnce_declined with r rest.
  - destruct (generateCommitMessage_run diff newKey w3)
      as (evs & Hlog & _ & _ & [[Hs _] | (v & before & after & Hv & Hs & -> & _)]);
      rewrite <- Hretry in Hlog, Hs; fold w' in Hlog, Hs.
    + left. by rewrite Hs.
    + right. exists v, before, after. split; [done|]. split.
      * rewrite Hs. apply lookup_insert_eq.
      * by apply eventsSince_app.
Qed.
End Replacement.

Lemma getGitDiff_frame w res w2 :
  getGitDiff w = (res, w2) ->
  exists evs, log w2 = log w ++ evs /\ secrets w2 = secrets w /\
    count isSecretStore evs = 0%nat.
Proof.
  rewrite getGitDiff_eq.
  destruct (workspaceFolders w) as [[|cwd fs]|]; intros [= <- <-].
  - exists []. by rewrite app_nil_r.
  - by eexists [_].
  - exists []. by rewrite app_nil_r.
Qed.

(** Once the key is there, the command changes the secret storage only by
    a replacement after a rate limit. *)
Lemma commatCommitGenerate_storage w apiKey w1 :
  getGeminiApiKey w = (Ok apiKey, w1) -> truthy apiKey = true ->
  let w' := (commatCommitGenerate w).2 in
  exists evs,
    log w' = log w1 ++ evs /\
    (secrets w' = secrets w1 /\ count isSecretStore evs = 0%nat \/
     exists v before after,
       v <> [] /\ secrets w' = <[secretName := v]> (secrets w1) /\
       evs = before ++ replacement v ++ after /\
       count isSecretStore after = 0%nat).
Proof.
  intros Hk Ht. cbv zeta. rewrite commatCommitGenerate_eq, Hk, Ht. cbv zeta.
  destruct (getGitDiff _) as [[diff|e] w2] eqn:Hd;
    destruct (getGitDiff_frame _ _ _ Hd) as (evs2 & Hlog2 & Hs2 & Hst2);
    world_simpl.
  2:{ eexists (_ :: evs2 ++ [_]). split.
      - rewrite Hlog2, <- !app_assoc. reflexivity.
      - left. split; [done|]. by rewrite count_cons, count_app, Hst2. }
  destruct (allWhiteSpace diff).
  { eexists (_ :: evs2 ++ [_]). world_simpl. split.
    - rewrite Hlog2, <- !app_assoc. reflexivity.
    - left. split; [done|]. by rewrite count_cons, count_app, Hst2. }
  destruct (generateCommitMessage_run diff (default [] apiKey) w2)
    as (evs & Hlog & Hrepo & Hci & Hs).
  destruct (generateCommitMessage _ _ _) as [res w3]. cbn [snd] in *.
  destruct res as [rawMessage|e];
    [destruct (gitRepositories w3) as [[|r rs]|]|];
    world_simpl; rewrite Hlog, Hlog2; world_simpl;
    (eexists (_ :: evs2 ++ _ :: evs ++ [_]);
     split; [rewrite <- !app_assoc; reflexivity|]);
    (destruct Hs as [[Hs Hst] | (v & before & after & Hv & Hs & -> & Hst)];
     [left; split; [congruence|];
      by rewrite count_cons, count_app, count_cons, count_app, Hst2, Hst
     |right;
      eexists v, (EvProgress progressTitle :: evs2 ++
                  EvFetch (endpoint ++ default [] apiKey) (promptFor diff)
                  :: before), (after ++ [_]);
      split; [done|]; split; [by rewrite Hs, Hs2|]; split;
      [by repeat first [rewrite <- app_assoc | rewrite <- app_comm_cons]
      |by rewrite count_app, Hst]]).
Qed.

(** Over a run of the command the secret storage is left as it was, or a
    key typed by the user replaces the old value. *)
Lemma commatCommitGenerate_secrets w :
  let w' := (commatCommitGenerate w).2 in
  secrets w' = secrets w \/
  exists v,
    v <> [] /\ secrets w' = <[secretName := v]> (secrets w) /\
    ((truthy (secrets w !! secretName) = false /\ nextInput w = Some v /\
      exists later,
        eventsSince w w' =
        EvInputBox promptFirstKey (Some v) :: EvSecretStore secretName v
          :: later /\
        count isSecretStore later = 0%nat) \/
     exists before after,
       eventsSince w w' = before ++ replacement v ++ after /\
       count isSecretStore after = 0%nat).
Proof.
  intros w'.
  pose proof (getGeminiApiKey_eq w) as Hk.
  destruct (truthy (secrets w !! secretName)) eqn:Hstored.
  - destruct (commatCommitGenerate_storage w _ w Hk Hstored)
      as (evs & Hlog & [[Hs _] | (v & before & after & Hv & Hs & -> & Hst)]).
    + by left.
    + right. exists v. split; [done|]. split; [done|]. right.
      exists before, after. split; [|done]. by apply eventsSince_app.
  - destruct (truthy (nextInput w)) eqn:Hinput.
    2:{ left. subst w'. by rewrite commatCommitGenerate_eq, Hk, Hinput. }
    destruct (nextInput w) as [[|c v]|] eqn:Hi; try discriminate.
    cbn [default] in Hk.
    destruct (commatCommitGenerate_storage w _ _ Hk eq_refl)
      as (evs & Hlog & [[Hs Hst] | (v' & before & after & Hv & Hs & -> & Hst)]);
      fold w' in Hlog, Hs; world_simpl; rewrite Hi in Hlog; right.
    + exists (c :: v). split; [done|]. split; [done|]. left.
      split; [done|]. split; [done|].
      exists (EvInformationMessage msgKeySaved :: evs). split.
      * apply eventsSince_app. by rewrite Hlog, <- !app_assoc.
      * by rewrite count_cons, Hst.
    + exists v'. split; [done|]. split.
      { by rewrite Hs, insert_insert_eq. }
      right.
      exists ([EvInputBox promptFirstKey (Some (c :: v));
               EvSecretStore secretName (c :: v);
               EvInformationMessage msgKeySaved] ++ before), after.
      split; [|done]. apply eventsSince_app.
      by rewrite Hlog, <- !app_assoc.
Qed.

(** C8: when the secret storage holds a non-empty key, [getGeminiApiKey]
    returns it and touches nothing: no input box is shown.  Over a whole run
    of the command the storage is left as it was, or it holds a non-empty
    key [v] in place of the old one, and then either nothing usable was
    stored at the start and the user typed [v] into the first-use input box,
    or the run contains the rate-limit dialog answered with "Enter New API
    Key", the input box answered with [v] and the store of [v], with no
    store after it.  In particular a run never leaves the empty string in
    the storage, so what is stored is always a key that is reused. *)
Theorem stored_key_is_reused_until_replaced :
  (forall w key,
     secrets w !! secretName = Some key -> key <> [] ->
     getGeminiApiKey w = (Ok (Some key), w)) /\
  (forall w,
     let w' := (commatCommitGenerate w).2 in
     secrets w' = secrets w \/
     exists v,
       v <> [] /\ secrets w' = <[secretName := v]> (secrets w) /\
       ((truthy (secrets w !! secretName) = false /\ nextInput w = Some v /\
         exists later,
           eventsSince w w' =
           EvInputBox promptFirstKey (Some v) :: EvSecretStore secretName v
             :: later /\
           count isSecretStore later = 0%nat) \/
        exists before after,
          eventsSince w w' = before ++ replacement v ++ after /\
          count isSecretStore after = 0%nat)) /\
  (forall w,
     (forall key, secrets w !! secretName = Some key -> key <> []) ->
     forall key,
       secrets (commatCommitGenerate w).2 !! secretName = Some key ->
       key <> []).
Proof.
  split; [|split].
  - intros w key Hs Hne. rewrite getGeminiApiKey_eq, Hs. by destruct key.
  - exact commatCommitGenerate_secrets.
  - intros w Hinv key.
    destruct (commatCommitGenerate_secrets w) as [-> | (v & Hv & -> & _)].
    + apply Hinv.
    + rewrite lookup_insert_eq. by intros [= <-].
Qed.

(** ** Runs on sample worlds *)

(** C1 at a failing input: the answer is a 429 twice and the user types a
    new key each time.  The call sends three requests, shows the rate-limit
    dialog and the input box twice, and returns the message of the third
    answer with the third key in the storage. *)
Theorem third_request_after_second_rate_limit :
  let run := generateCommitMessage key1 sampleDiff wRateLimitedTwice in
  let evs := eventsSince wRateLimitedTwice run.2 in
  run.1 = Ok (lit "fix: typo") /\
  networkCalls evs = 3%nat /\
  count isInputBox evs = 2%nat /\ count isErrorMessage evs = 2%nat /\
  secrets run.2 !! secretName = Some key3 /\
  evs = [EvFetch (endpoint ++ key1) (promptFor sampleDiff)]
        ++ replacement key2
        ++ [EvFetch (endpoint ++ key2) (promptFor sampleDiff)]
        ++ replacement key3
        ++ [EvFetch (endpoint ++ key3) (promptFor sampleDiff)].
Proof. vm_compute. repeat split. Qed.

(** C2 as the specification words it fails: with the text in two parts the
    message is "feat: add hello", not the first part "feat: add". *)
Lemma first_text_segment_only_counterexample :
  ~ (forall apiKey diff w r rest data m w',
       network w = Responds r :: rest -> status r <> 429 -> ok r = true ->
       json r = Ok data ->
       generateCommitMessage apiKey diff w = (Ok m, w') ->
       exists s, firstTextSegment data = Some s /\ m = trim s).
Proof.
  intros H.
  destruct (H key1 sampleDiff wTwoSegments
              (mkResponse 200 true (Ok twoSegments)) [] twoSegments
              (lit "feat: add hello")
              (generateCommitMessage key1 sampleDiff wTwoSegments).2)
    as (s & Hs & Hm).
  - reflexivity.
  - discriminate.
  - reflexivity.
  - reflexivity.
  - vm_compute. reflexivity.
  - vm_compute in Hs. injection Hs as <-. vm_compute in Hm. discriminate Hm.
Qed.

(** The message of the two-part answer is the two texts joined. *)
Lemma message_joins_every_text_segment_witness :
  allWhiteSpace (lit "feat: add hello") = false /\
  generateCommitMessage key1 sampleDiff wTwoSegments =
  (Ok (trim (lit "feat: add hello")),
   fetched (endpoint ++ key1) (promptFor sampleDiff) wTwoSegments).
Proof.
  split; [reflexivity|].
  apply (message_joins_every_text_segment key1 sampleDiff wTwoSegments
           (mkResponse 200 true (Ok twoSegments)) [] twoSegments
           [textPart (lit "feat: add"); textPart (lit " hello")]
           (lit "feat: add hello")).
  - reflexivity.
  - cbn [status]. lia.
  - reflexivity.
  - reflexivity.
  - reflexivity.
  - vm_compute. reflexivity.
  - reflexivity.
Defined.

(** A diff of blanks, a line feed and a tab: no request is sent. *)
Lemma blank_diff_stops_with_warning_witness :
  allWhiteSpace blankDiff = true /\
  networkCalls (eventsSince wBlank (commatCommitGenerate wBlank).2) = 0%nat.
Proof.
  split; [reflexivity|].
  destruct (blank_diff_stops_with_warning wBlank (Some key1) wBlank blankDiff
              (emit (EvExec gitCommand (lit "/repo") maxBuffer)
                 (emit (EvProgress progressTitle) wBlank)))
    as (Hrun & _ & Hcalls & _).
  - vm_compute. reflexivity.
  - reflexivity.
  - vm_compute. reflexivity.
  - reflexivity.
  - rewrite Hrun. exact Hcalls.
Defined.

(** The scenario of the specification: the trailing line feed is gone. *)
Lemma returned_message_is_trimmed_and_not_empty_witness :
  exists joined,
    joined = lit "feat: add hello line" ++ [10] /\
    lit "feat: add hello line" = trim joined /\
    lit "feat: add hello line" <> [].
Proof.
  destruct (proj1 (returned_message_is_trimmed_and_not_empty
                     key1 sampleDiff wHello)
              (lit "feat: add hello line")
              (generateCommitMessage key1 sampleDiff wHello).2)
    as (earlier & r & data & parts & joined
        & Hnet & Hj & Hp & Ht & Hm & Hne & _).
  - vm_compute. reflexivity.
  - exists (lit "feat: add hello line" ++ [10]).
    split; [reflexivity|]. split; [vm_compute; reflexivity | exact Hne].
Defined.

(** A 500 is reported with its status. *)
Lemma upstream_error_surfaces_status_witness :
  generateCommitMessage key1 sampleDiff wServerError =
  (Throw (msgApiError ++ numberToString 500),
   fetched (endpoint ++ key1) (promptFor sampleDiff) wServerError).
Proof.
  apply (upstream_error_surfaces_status key1 sampleDiff wServerError
           (mkResponse 500 false (Throw (lit "Unexpected end of JSON input")))
           []).
  - reflexivity.
  - cbn [status]. lia.
  - reflexivity.
Defined.

(** "Cancel" on the rate-limit dialog. *)
Lemma rate_limit_without_new_key_fails_witness :
  generateCommitMessage key1 sampleDiff wDeclined =
  (Throw msgRateLimited,
   chose msgRateLimitDialog [btnEnterNewKey; btnCancel]
     (fetched (endpoint ++ key1) (promptFor sampleDiff) wDeclined)).
Proof.
  apply (rate_limit_without_new_key_fails key1 sampleDiff wDeclined
           (mkResponse 429 false (Throw (lit "Unexpected end of JSON input")))
           []).
  - reflexivity.
  - reflexivity.
  - vm_compute. discriminate.
Defined.

(** Nothing stored and the first-use input box dismissed. *)
Lemma first_use_cancelled_aborts_silently_witness :
  commatCommitGenerate (freshWorld []) =
  (Ok tt, asked promptFirstKey (freshWorld [])).
Proof.
  apply (first_use_cancelled_aborts_silently (freshWorld [])).
  - reflexivity.
  - reflexivity.
Defined.

(** The stored key is returned and the world is untouched. *)
Lemma stored_key_is_reused_until_replaced_witness :
  getGeminiApiKey wHello = (Ok (Some key1), wHello).
Proof.
  apply (proj1 stored_key_is_reused_until_replaced wHello key1).
  - vm_compute. reflexivity.
  - vm_compute. discriminate.
Defined.

(** One folder, [git] exits with 0: the diff comes back as it is. *)
Lemma getGitDiff_failure_modes_witness :
  getGitDiff wHello =
  (Ok sampleDiff, emit (EvExec gitCommand (lit "/repo") maxBuffer) wHello).
Proof.
  destruct (proj2 (getGitDiff_failure_modes wHello) (lit "/repo") [] eq_refl)
    as (_ & Hok & _).
  apply (Hok sampleDiff []).
  - reflexivity.
  - vm_compute. discriminate.
  - vm_compute. discriminate.
Defined.

(** The new key is in the storage although the retry met a 500. *)
Lemma replacement_key_is_stored_before_retry_witness :
  retryKey wReplacedThenError = Some key2 /\
  secrets (generateCommitMessage key1 sampleDiff wReplacedThenError).2
    !! secretName = Some key2.
Proof.
  split; [reflexivity|].
  destruct (replacement_key_is_stored_before_retry sampleDiff key1
              wReplacedThenError key2 eq_refl)
    as (_ & _ & _ & Hkept & _).
  apply Hkept. reflexivity.
Defined.

(** * Further properties of the command *)

(** ** The steps of the handler *)

(** How [getGitDiff] leaves the world: untouched when there is no folder,
    with the one [exec] logged otherwise. *)
Lemma getGitDiff_Throw w e w2 :
  getGitDiff w = (Throw e, w2) ->
  e = msgNoWorkspace /\ w2 = w \/
  e = msgDiffFailed /\
  exists cwd others, workspaceFolders w = Some (cwd :: others) /\
    w2 = emit (EvExec gitCommand cwd maxBuffer) w.
Proof.
  rewrite getGitDiff_eq.
  destruct (workspaceFolders w) as [[|cwd others]|].
  - intros [= <- <-]. by left.
  - intros [= He <-]. right. split; [|by exists cwd, others].
    destruct (gitDiffCached w) as [|code out errOut]; [congruence|].
    destruct ((maxBuffer <? utf8Length out) || (maxBuffer <? utf8Length errOut));
      [congruence|].
    destruct (code =? 0); [discriminate | congruence].
  - intros [= <- <-]. by left.
Qed.

Lemma getGitDiff_Ok_cwd w diff w2 :
  getGitDiff w = (Ok diff, w2) ->
  exists cwd others, workspaceFolders w = Some (cwd :: others) /\
    w2 = emit (EvExec gitCommand cwd maxBuffer) w.
Proof.
  rewrite getGitDiff_eq.
  destruct (workspaceFolders w) as [[|cwd others]|]; try discriminate.
  intros [= _ <-]. by exists cwd, others.
Qed.

(** The events of the handler up to the call of [generateCommitMessage]. *)
Lemma commatCommitGenerate_prefix w apiKey w1 diff w2 :
  getGeminiApiKey w = (Ok apiKey, w1) ->
  getGitDiff (emit (EvProgress progressTitle) w1) = (Ok diff, w2) ->
  exists evs cwd others,
    workspaceFolders w = Some (cwd :: others) /\
    log w2 = log w ++ evs ++ [EvProgress progressTitle;
                              EvExec gitCommand cwd maxBuffer] /\
    gitRepositories w2 = gitRepositories w /\
    network w2 = network w /\
    networkCalls evs = 0%nat /\ count isCommitInput evs = 0%nat /\
    count isErrorMessage evs = 0%nat.
Proof.
  intros Hk Hd.
  destruct (getGeminiApiKey_log _ _ _ Hk)
    as (evs & Hlog & Hnet & Hrepo & Hf & _ & Hn & He & Hc & _).
  destruct (getGitDiff_Ok_cwd _ _ _ Hd) as (cwd & others & Hfolders & ->).
  exists evs, cwd, others. world_simpl.
  rewrite <- Hf. split; [done|]. split.
  { by rewrite Hlog, <- !app_assoc. }
  done.
Qed.

(** The handler from the call of [generateCommitMessage] on. *)
Lemma commatCommitGenerate_generated w apiKey w1 diff w2 :
  getGeminiApiKey w = (Ok (Some apiKey), w1) -> apiKey <> [] ->
  getGitDiff (emit (EvProgress progressTitle) w1) = (Ok diff, w2) ->
  allWhiteSpace diff = false ->
  commatCommitGenerate w =
  let failed e w' :=
    (Ok tt, emit (EvErrorMessage (msgErrorPrefix ++ e) [] None) w') in
  match generateCommitMessage apiKey diff w2 with
  | (Throw e, w3) => failed e w3
  | (Ok rawMessage, w3) =>
      match gitRepositories w3 with
      | None => failed msgNoGitExtension w3
      | Some [] => failed msgNoRepository w3
      | Some repos =>
          (Ok tt,
           emit (EvCommitInput 0 rawMessage)
             (setGitRepositories (Some (<[0%nat:=rawMessage]> repos)) w3))
      end
  end.
Proof.
  intros Hk Hne Hd Hb. rewrite commatCommitGenerate_eq, Hk. cbv zeta.
  destruct apiKey as [|c k]; [done|].
  change (truthy (Some (c :: k))) with true. cbv iota.
  change (default [] (Some (c :: k))) with (c :: k).
  by rewrite Hd, Hb.
Qed.

(** X1: with a key, a diff that is not blank and a message from the
    endpoint, the handler writes the message into the input box of the first
    repository and leaves the other repositories alone; the diff was taken
    in the first workspace folder; the write is the last event of the run
    and the only write. *)
Theorem message_is_written_to_first_repository
    w apiKey w1 diff w2 m w3 repo others :
  getGeminiApiKey w = (Ok (Some apiKey), w1) -> apiKey <> [] ->
  getGitDiff (emit (EvProgress progressTitle) w1) = (Ok diff, w2) ->
  allWhiteSpace diff = false ->
  generateCommitMessage apiKey diff w2 = (Ok m, w3) ->
  gitRepositories w = Some (repo :: others) ->
  let w' := (commatCommitGenerate w).2 in
  (commatCommitGenerate w).1 = Ok tt /\
  gitRepositories w' = Some (m :: others) /\
  last (eventsSince w w') = Some (EvCommitInput 0 m) /\
  count isCommitInput (eventsSince w w') = 1%nat /\
  (exists cwd rest, workspaceFolders w = Some (cwd :: rest) /\
     EvExec gitCommand cwd maxBuffer ∈ eventsSince w w') /\
  secrets w' = secrets w3.
Proof.
  intros Hk Hne Hd Hb Hg Hrepos w'.
  destruct (commatCommitGenerate_prefix _ _ _ _ _ Hk Hd)
    as (evs & cwd & rest & Hfolders & Hlog2 & Hrepo2 & _ & _ & Hc & _).
  destruct (generateCommitMessage_run diff apiKey w2)
    as (evsG & HlogG & HrepoG & HcG & _).
  rewrite Hg in HlogG, HrepoG. cbn [snd] in HlogG, HrepoG.
  assert (commatCommitGenerate w =
          (Ok tt, emit (EvCommitInput 0 m)
                    (setGitRepositories (Some (m :: others)) w3))) as Hrun.
  { rewrite (commatCommitGenerate_generated _ _ _ _ _ Hk Hne Hd Hb), Hg.
    cbv zeta. by rewrite HrepoG, Hrepo2, Hrepos. }
  subst w'. rewrite Hrun. cbn [fst snd].
  assert (eventsSince w (emit (EvCommitInput 0 m)
                           (setGitRepositories (Some (m :: others)) w3))
          = evs ++ [EvProgress progressTitle; EvExec gitCommand cwd maxBuffer]
                ++ EvFetch (endpoint ++ apiKey) (promptFor diff) :: evsG
                ++ [EvCommitInput 0 m]) as ->.
  { apply eventsSince_app. world_simpl.
    rewrite HlogG, Hlog2.
    by repeat first [rewrite <- app_assoc | rewrite <- app_comm_cons]. }
  split; [done|]. split; [done|]. split.
  { by rewrite last_app, last_app, last_cons, last_snoc. }
  split.
  { by rewrite !count_app, (count_cons _ (EvFetch _ _)), !count_app, Hc, HcG. }
  split; [|done].
  exists cwd, rest. split; [done|].
  rewrite !elem_of_app, !elem_of_cons. right. left. right. by left.
Qed.

(** X2: the repository is looked up only after the message has been
    generated.  When the [vscode.git] extension is missing, or knows no
    repository, the request has been sent all the same, the message is
    dropped, and the handler shows "Git extension not found" or "No Git
    repository found". *)
Theorem missing_repository_drops_the_message
    w apiKey w1 diff w2 m w3 :
  getGeminiApiKey w = (Ok (Some apiKey), w1) -> apiKey <> [] ->
  getGitDiff (emit (EvProgress progressTitle) w1) = (Ok diff, w2) ->
  allWhiteSpace diff = false ->
  generateCommitMessage apiKey diff w2 = (Ok m, w3) ->
  gitRepositories w = None \/ gitRepositories w = Some [] ->
  let failure :=
    match gitRepositories w with
    | Some _ => msgNoRepository
    | None => msgNoGitExtension
    end in
  let w' := emit (EvErrorMessage (msgErrorPrefix ++ failure) [] None) w3 in
  commatCommitGenerate w = (Ok tt, w') /\
  (1 <= networkCalls (eventsSince w w'))%nat /\
  count isCommitInput (eventsSince w w') = 0%nat /\
  gitRepositories w' = gitRepositories w.
Proof.
  intros Hk Hne Hd Hb Hg Hrepos failure w'.
  destruct (commatCommitGenerate_prefix _ _ _ _ _ Hk Hd)
    as (evs & cwd & rest & Hfolders & Hlog2 & Hrepo2 & _ & _ & Hc & _).
  destruct (generateCommitMessage_run diff apiKey w2)
    as (evsG & HlogG & HrepoG & HcG & _).
  rewrite Hg in HlogG, HrepoG. cbn [snd] in HlogG, HrepoG.
  assert (commatCommitGenerate w = (Ok tt, w')) as Hrun.
  { rewrite (commatCommitGenerate_generated _ _ _ _ _ Hk Hne Hd Hb), Hg.
    cbv zeta. rewrite HrepoG, Hrepo2. subst w' failure.
    by destruct Hrepos as [-> | ->]. }
  split; [done|].
  assert (eventsSince w w'
          = evs ++ [EvProgress progressTitle; EvExec gitCommand cwd maxBuffer]
                ++ EvFetch (endpoint ++ apiKey) (promptFor diff) :: evsG
                ++ [EvErrorMessage (msgErrorPrefix ++ failure) [] None]) as ->.
  { apply eventsSince_app. subst w'. world_simpl.
    rewrite HlogG, Hlog2.
    by repeat first [rewrite <- app_assoc | rewrite <- app_comm_cons]. }
  split; [|split].
  - unfold networkCalls.
    rewrite !count_app, (count_cons _ (EvFetch _ _)). cbn [isFetch]. lia.
  - by rewrite !count_app, (count_cons _ (EvFetch _ _)), !count_app, Hc, HcG.
  - subst w'. world_simpl. by rewrite HrepoG, Hrepo2.
Qed.

(** X3: when the diff cannot be had (no workspace folder, or [git] fails),
    the handler shows that error after the progress has started and stops:
    no request is sent and nothing is written; without a folder [git] is not
    even run. *)
Theorem diff_failure_stops_before_any_request w apiKey w1 e w2 :
  getGeminiApiKey w = (Ok apiKey, w1) -> truthy apiKey = true ->
  getGitDiff (emit (EvProgress progressTitle) w1) = (Throw e, w2) ->
  let w' := emit (EvErrorMessage (msgErrorPrefix ++ e) [] None) w2 in
  commatCommitGenerate w = (Ok tt, w') /\
  (e = msgNoWorkspace \/ e = msgDiffFailed) /\
  (e = msgNoWorkspace -> count isExec (eventsSince w w') = 0%nat) /\
  networkCalls (eventsSince w w') = 0%nat /\
  count isCommitInput (eventsSince w w') = 0%nat /\
  network w' = network w /\ gitRepositories w' = gitRepositories w.
Proof.
  intros Hk Ht Hd w'.
  destruct (getGeminiApiKey_log _ _ _ Hk)
    as (evs & Hlog & Hnet & Hrepo & _ & _ & Hn & _ & Hc & Hx).
  split.
  { by rewrite commatCommitGenerate_eq, Hk, Ht, Hd. }
  destruct (getGitDiff_Throw _ _ _ Hd)
    as [[-> ->] | (-> & cwd & others & _ & ->)].
  - assert (eventsSince w w' =
            evs ++ [EvProgress progressTitle;
                    EvErrorMessage (msgErrorPrefix ++ msgNoWorkspace) [] None])
      as ->.
    { apply eventsSince_app. subst w'. world_simpl.
      by rewrite Hlog, <- !app_assoc. }
    unfold networkCalls in *. rewrite !count_app, Hn, Hc, Hx.
    split; [by left|]. done.
  - assert (eventsSince w w' =
            evs ++ [EvProgress progressTitle;
                    EvExec gitCommand cwd maxBuffer;
                    EvErrorMessage (msgErrorPrefix ++ msgDiffFailed) [] None])
      as ->.
    { apply eventsSince_app. subst w'. world_simpl.
      by rewrite Hlog, <- !app_assoc. }
    unfold networkCalls in *. rewrite !count_app, Hn, Hc.
    split; [by right|]. split; [|done].
    intros H. exfalso. revert H. vm_compute. discriminate.
Qed.

(** ** The outcomes of the handler *)

Lemma getGitDiff_world w res w2 :
  getGitDiff w = (res, w2) ->
  w2 = w \/ exists cwd, w2 = emit (EvExec gitCommand cwd maxBuffer) w.
Proof.
  destruct res as [diff|e]; intros H.
  - destruct (getGitDiff_Ok_cwd _ _ _ H) as (cwd & _ & _ & ->). eauto.
  - destruct (getGitDiff_Throw _ _ _ H) as [[_ ->] | (_ & cwd & _ & _ & ->)];
      eauto.
Qed.

(** X4: the handler never throws, and a run ends in exactly one of four
    ways: silently, with the first-use input box left empty as its only
    event; with the warning about staged changes, and then no request was
    sent; with one error notification "Commat Commit Error: ..."; or with
    the write of a message that is not empty and is trimmed.  The write, the
    warning or the notification is the last event, and the input box is
    written in the last case only, once. *)
Theorem handler_ends_in_one_of_four_ways w :
  let w' := (commatCommitGenerate w).2 in
  let evs := eventsSince w w' in
  (commatCommitGenerate w).1 = Ok tt /\
  (evs = [EvInputBox promptFirstKey (nextInput w)] /\
     truthy (nextInput w) = false /\ w' = asked promptFirstKey w
   \/
   last evs = Some (EvWarningMessage msgNoStaged) /\
     count isCommitInput evs = 0%nat /\ networkCalls evs = 0%nat
   \/
   (exists e, last evs = Some (EvErrorMessage (msgErrorPrefix ++ e) [] None)) /\
     count isCommitInput evs = 0%nat
   \/
   exists m, last evs = Some (EvCommitInput 0 m) /\
     count isCommitInput evs = 1%nat /\ m <> [] /\ trim m = m).
Proof.
  intros w' evs. subst evs w'.
  rewrite commatCommitGenerate_eq. cbv zeta.
  pose proof (getGeminiApiKey_eq w) as Hk.
  destruct (getGeminiApiKey w) as [[apiKey|e] w1] eqn:Hkey.
  2:{ by destruct (truthy (secrets w !! secretName)). }
  destruct (getGeminiApiKey_log _ _ _ Hkey)
    as (evsK & HlogK & _ & _ & _ & _ & HnK & _ & HcK & _).
  destruct (truthy apiKey) eqn:Ht.
  2:{ split; [done|]. left. cbn [snd].
      destruct (truthy (secrets w !! secretName)) eqn:Hs.
      { injection Hk as Ha Hw. subst. congruence. }
      injection Hk as Ha Hw. subst apiKey. rewrite Ht in Hw. subst w1.
      split; [|done]. by apply eventsSince_app. }
  destruct (getGitDiff _) as [[diff|e] w2] eqn:Hd;
    destruct (getGitDiff_world _ _ _ Hd) as [-> | [cwd ->]].
  - by destruct (getGitDiff_Ok_cwd _ _ _ Hd) as (c & o & _ & Habs);
      apply (f_equal log), (f_equal length) in Habs;
      world_simpl; rewrite !length_app in Habs; cbn [length] in Habs; lia.
  - destruct (allWhiteSpace diff) eqn:Hb.
    { split; [done|]. right; left. cbn [snd].
      rewrite (eventsSince_app w _
                 (evsK ++ [EvProgress progressTitle;
                           EvExec gitCommand cwd maxBuffer;
                           EvWarningMessage msgNoStaged])).
      2:{ world_simpl. by rewrite HlogK, <- !app_assoc. }
      unfold networkCalls in *.
      rewrite !count_app, HnK, HcK. split; [|done].
      by rewrite (last_app_cons evsK [_; _] _). }
    set (w2 := emit (EvExec gitCommand cwd maxBuffer) _) in *.
    destruct (generateCommitMessage_run diff (default [] apiKey) w2)
      as (evsG & HlogG & _ & HcG & _).
    pose proof (generateCommitMessage_Ok_inv diff (default [] apiKey) w2)
      as Hinv.
    destruct (generateCommitMessage _ _ _) as [[m|e] w3]; cbn [snd] in HlogG.
    + destruct (Hinv m w3 eq_refl)
        as (_ & _ & _ & _ & joined & _ & _ & _ & _ & _ & _ & Hm & Hne).
      assert (log w3 = log w ++ evsK ++
                [EvProgress progressTitle; EvExec gitCommand cwd maxBuffer]
                ++ EvFetch (endpoint ++ default [] apiKey) (promptFor diff)
                   :: evsG) as Hlog3.
      { rewrite HlogG. subst w2. world_simpl.
        rewrite HlogK.
        by repeat first [rewrite <- app_assoc | rewrite <- app_comm_cons]. }
      split; [by destruct (gitRepositories w3) as [[|? ?]|]|].
      right; right.
      destruct (gitRepositories w3) as [[|r rs]|]; cbn [snd].
      * left. rewrite (eventsSince_app w _
                 (evsK ++ [EvProgress progressTitle;
                           EvExec gitCommand cwd maxBuffer]
                  ++ EvFetch (endpoint ++ default [] apiKey) (promptFor diff)
                     :: evsG ++ [EvErrorMessage
                                   (msgErrorPrefix ++ msgNoRepository) []
                                   None])).
        2:{ world_simpl. rewrite Hlog3.
            by repeat first [rewrite <- app_assoc | rewrite <- app_comm_cons]. }
        split.
        { eexists. by rewrite last_app, last_app, last_cons, last_snoc. }
        by rewrite !count_app, (count_cons _ (EvFetch _ _)), !count_app,
             HcK, HcG.
      * right. exists m.
        rewrite (eventsSince_app w _
                 (evsK ++ [EvProgress progressTitle;
                           EvExec gitCommand cwd maxBuffer]
                  ++ EvFetch (endpoint ++ default [] apiKey) (promptFor diff)
                     :: evsG ++ [EvCommitInput 0 m])).
        2:{ world_simpl. rewrite Hlog3.
            by repeat first [rewrite <- app_assoc | rewrite <- app_comm_cons]. }
        split.
        { by rewrite last_app, last_app, last_cons, last_snoc. }
        split.
        { by rewrite !count_app, (count_cons _ (EvFetch _ _)), !count_app,
               HcK, HcG. }
        split; [done|]. rewrite Hm. apply trim_idem.
      * left. rewrite (eventsSince_app w _
                 (evsK ++ [EvProgress progressTitle;
                           EvExec gitCommand cwd maxBuffer]
                  ++ EvFetch (endpoint ++ default [] apiKey) (promptFor diff)
                     :: evsG ++ [EvErrorMessage
                                   (msgErrorPrefix ++ msgNoGitExtension) []
                                   None])).
        2:{ world_simpl. rewrite Hlog3.
            by repeat first [rewrite <- app_assoc | rewrite <- app_comm_cons]. }
        split.
        { eexists. by rewrite last_app, last_app, last_cons, last_snoc. }
        by rewrite !count_app, (count_cons _ (EvFetch _ _)), !count_app,
             HcK, HcG.
    + split; [done|]. right; right; left. cbn [snd].
      rewrite (eventsSince_app w _
                 (evsK ++ [EvProgress progressTitle;
                           EvExec gitCommand cwd maxBuffer]
                  ++ EvFetch (endpoint ++ default [] apiKey) (promptFor diff)
                     :: evsG ++ [EvErrorMessage (msgErrorPrefix ++ e) []
                                   None])).
      2:{ world_simpl. rewrite HlogG. subst w2. world_simpl. rewrite HlogK.
          by repeat first [rewrite <- app_assoc | rewrite <- app_comm_cons]. }
      split.
      { eexists. by rewrite last_app, last_app, last_cons, last_snoc. }
      by rewrite !count_app, (count_cons _ (EvFetch _ _)), !count_app,
           HcK, HcG.
  - split; [done|]. right; right; left. cbn [snd].
    rewrite (eventsSince_app w _
               (evsK ++ [EvProgress progressTitle;
                         EvErrorMessage (msgErrorPrefix ++ e) [] None])).
    2:{ world_simpl. by rewrite HlogK, <- !app_assoc. }
    split.
    { eexists. by rewrite (last_app_cons evsK [_] _). }
    by rewrite !count_app, HcK.
  - split; [done|]. right; right; left. cbn [snd].
    rewrite (eventsSince_app w _
               (evsK ++ [EvProgress progressTitle;
                         EvExec gitCommand cwd maxBuffer;
                         EvErrorMessage (msgErrorPrefix ++ e) [] None])).
    2:{ world_simpl. by rewrite HlogK, <- !app_assoc. }
    split.
    { eexists. by rewrite (last_app_cons evsK [_; _] _). }
    by rewrite !count_app, HcK.
Qed.

(** ** The key in the secret storage *)

(** X5: at first use, when nothing usable is stored and the user types a
    non-empty key, [getGeminiApiKey] shows the input box once, stores the
    key, confirms it, and returns it; asked again, it returns the same key
    from the storage and shows nothing. *)
Theorem first_use_key_is_saved_and_reused w v :
  truthy (secrets w !! secretName) = false ->
  nextInput w = Some v -> v <> [] ->
  let w1 := emit (EvInformationMessage msgKeySaved)
              (stored secretName v (asked promptFirstKey w)) in
  getGeminiApiKey w = (Ok (Some v), w1) /\
  secrets w1 = <[secretName := v]> (secrets w) /\
  eventsSince w w1 =
    [EvInputBox promptFirstKey (Some v); EvSecretStore secretName v;
     EvInformationMessage msgKeySaved] /\
  inputAnswers w1 = tail (inputAnswers w) /\
  getGeminiApiKey w1 = (Ok (Some v), w1).
Proof.
  intros Hs Hi Hv w1.
  assert (truthy (Some v) = true) as Ht by by destruct v.
  split.
  { rewrite getGeminiApiKey_eq, Hs, Hi, Ht. done. }
  split; [done|]. split.
  { apply eventsSince_app. subst w1. world_simpl.
    by rewrite Hi, <- !app_assoc. }
  split; [done|].
  rewrite getGeminiApiKey_eq.
  assert (secrets w1 !! secretName = Some v) as -> by apply lookup_insert_eq.
  by rewrite Ht.
Qed.

(** X6: [promptNewGeminiApiKey] asks whatever the storage holds.  A
    non-empty answer overwrites the stored key, and [getGeminiApiKey] then
    returns the new key without asking; an empty or dismissed answer leaves
    the storage as it was.  The other entries of the storage are never
    touched. *)
Theorem replacement_prompt_overwrites_the_stored_key w :
  (forall v, nextInput w = Some v -> v <> [] ->
     let w1 := stored secretName v (asked promptNewKey w) in
     promptNewGeminiApiKey w = (Ok (Some v), w1) /\
     secrets w1 = <[secretName := v]> (secrets w) /\
     getGeminiApiKey w1 = (Ok (Some v), w1)) /\
  (truthy (nextInput w) = false ->
     promptNewGeminiApiKey w = (Ok (nextInput w), asked promptNewKey w) /\
     secrets (asked promptNewKey w) = secrets w) /\
  (forall k, k <> secretName ->
     secrets (promptNewGeminiApiKey w).2 !! k = secrets w !! k) /\
  eventsSince w (asked promptNewKey w)
    = [EvInputBox promptNewKey (nextInput w)].
Proof.
  split; [|split; [|split]].
  - intros v Hi Hv w1.
    assert (truthy (Some v) = true) as Ht by by destruct v.
    split; [by rewrite promptNewGeminiApiKey_eq, Hi, Ht|].
    split; [done|].
    rewrite getGeminiApiKey_eq.
    assert (secrets w1 !! secretName = Some v) as -> by apply lookup_insert_eq.
    by rewrite Ht.
  - intros Hi. by rewrite promptNewGeminiApiKey_eq, Hi.
  - intros k Hk. rewrite promptNewGeminiApiKey_eq. cbn [snd].
    destruct (truthy (nextInput w)); [|done].
    world_simpl. by rewrite lookup_insert_ne.
  - by apply eventsSince_app.
Qed.

(** X7: a run of the command touches no entry of the secret storage other
    than [geminiApiKey], and never removes that entry: a key that is stored
    before the run is stored after it (the same, or its replacement). *)
Theorem run_touches_only_the_key_entry w :
  let w' := (commatCommitGenerate w).2 in
  (forall k, k <> secretName -> secrets w' !! k = secrets w !! k) /\
  (is_Some (secrets w !! secretName) -> is_Some (secrets w' !! secretName)) /\
  dom (secrets w) ⊆ dom (secrets w').
Proof.
  intros w'. subst w'.
  destruct (commatCommitGenerate_secrets w) as [-> | (v & _ & -> & _)].
  - done.
  - split; [|split].
    + intros k Hk. by rewrite lookup_insert_ne.
    + intros _. rewrite lookup_insert_eq. by eexists.
    + rewrite dom_insert_L. set_solver.
Qed.

(** X8: a key typed at first use is stored before anything else is tried,
    so it is still stored when the run fails or stops afterwards.  After the
    run the storage holds that key, or the key of a replacement made during
    the run; in particular it holds the first-use key when the diff cannot
    be had or is blank. *)
Theorem first_use_key_survives_the_run w v :
  truthy (secrets w !! secretName) = false ->
  nextInput w = Some v -> v <> [] ->
  let w1 := emit (EvInformationMessage msgKeySaved)
              (stored secretName v (asked promptFirstKey w)) in
  let w' := (commatCommitGenerate w).2 in
  (secrets w' = <[secretName := v]> (secrets w) \/
   exists v' before after,
     v' <> [] /\ secrets w' = <[secretName := v']> (secrets w) /\
     eventsSince w1 w' = before ++ replacement v' ++ after) /\
  (forall res w2,
     getGitDiff (emit (EvProgress progressTitle) w1) = (res, w2) ->
     match res with
     | Throw _ => True
     | Ok diff => allWhiteSpace diff = true
     end ->
     secrets w' !! secretName = Some v).
Proof.
  intros Hs Hi Hv w1 w'.
  assert (truthy (Some v) = true) as Ht by by destruct v.
  assert (getGeminiApiKey w = (Ok (Some v), w1)) as Hk.
  { rewrite getGeminiApiKey_eq, Hs, Hi, Ht. done. }
  split.
  - destruct (commatCommitGenerate_storage w _ _ Hk Ht)
      as (evs & Hlog & [[Hsec _] | (v' & before & after & Hv' & Hsec & -> & _)]);
      fold w' in Hlog, Hsec.
    + left. by rewrite Hsec.
    + right. exists v', before, after. split; [done|]. split.
      * rewrite Hsec. subst w1. world_simpl. apply insert_insert_eq.
      * by apply eventsSince_app.
  - intros res w2 Hd Hres. subst w'.
    rewrite commatCommitGenerate_eq, Hk, Ht. cbv zeta. rewrite Hd.
    destruct (getGitDiff_frame _ _ _ Hd) as (_ & _ & Hsec & _).
    destruct res as [diff|e].
    + rewrite Hres. cbn [snd]. world_simpl. rewrite Hsec.
      apply lookup_insert_eq.
    + cbn [snd]. world_simpl. rewrite Hsec. apply lookup_insert_eq.
Qed.

(** ** The requests of a call *)

Lemma requestsOf_app evs1 evs2 :
  requestsOf (evs1 ++ evs2) = requestsOf evs1 ++ requestsOf evs2.
Proof. apply omap_app. Qed.

Lemma storesOf_app evs1 evs2 :
  storesOf (evs1 ++ evs2) = storesOf evs1 ++ storesOf evs2.
Proof. apply omap_app. Qed.

Lemma networkCalls_requestsOf evs :
  networkCalls evs = length (requestsOf evs).
Proof.
  unfold networkCalls, count, requestsOf.
  induction evs as [|e evs IH]; [done|].
  destruct e; cbn [List.filter isFetch omap list_omap length]; try exact IH.
  by rewrite IH.
Qed.

(** Every request among the events of a call is the first event, with the
    key the call was given, or comes right after the store of the key it
    carries. *)
Lemma callEvents_request diff closing keys :
  networkCalls closing = 0%nat ->
  forall apiKey before url prompt after,
    callEvents diff apiKey keys closing
      = before ++ EvFetch url prompt :: after ->
    prompt = promptFor diff /\
    (before = [] /\ url = endpoint ++ apiKey \/
     exists earlier k,
       before = earlier ++ [EvSecretStore secretName k] /\
       k ∈ keys /\ url = endpoint ++ k).
Proof.
  intros Hclosing.
  induction keys as [|k keys IH]; intros apiKey before url prompt after;
    cbn [callEvents].
  - destruct before as [|e before]; cbn [app].
    + intros [= <- <- _]. split; [done|]. by left.
    + intros [= _ Hc]. exfalso. revert Hclosing. rewrite Hc.
      unfold networkCalls. rewrite count_app, count_cons. cbn [isFetch]. lia.
  - unfold replacement. cbn [app].
    destruct before as [|e0 [|e1 [|e2 [|e3 before]]]]; cbn [app];
      try discriminate.
    + intros [= <- <- _]. split; [done|]. by left.
    + intros [= _ _ _ He3 Hrest].
      destruct (IH _ _ _ _ _ Hrest) as [-> [[-> ->] | Hlater]];
        (split; [done|]); right.
      * exists [e0; e1; e2], k. rewrite <- He3.
        split; [done|]. split; [|done]. apply elem_of_cons. by left.
      * destruct Hlater as (earlier & k' & -> & Hin & ->).
        exists (e0 :: e1 :: e2 :: e3 :: earlier), k'.
        split; [done|]. split; [|done]. apply elem_of_cons. by right.
Qed.

(** X9: the events of one call of [generateCommitMessage], in their
    order.  The first is the request with the key the call was given.  Every
    other request comes right after the three events of a replacement, the
    dialog answered with "Enter New API Key", the input box answered with a
    non-empty key and the store of that key, and it carries that key; so any
    request of the call is the first event or is immediately preceded by the
    store of the key it carries.  All requests carry the prompt built from
    the same diff.  After the last request nothing is requested or stored.
    Nothing else is stored, so the number of requests is one more than the
    number of keys stored, and after a replacement the storage holds the key
    of the last request. *)
Theorem requests_follow_the_keys apiKey diff w :
  let w' := (generateCommitMessage apiKey diff w).2 in
  let evs := eventsSince w w' in
  exists keys closing,
    evs = callEvents diff apiKey keys closing /\
    networkCalls closing = 0%nat /\ count isSecretStore closing = 0%nat /\
    (forall before url prompt after,
       evs = before ++ EvFetch url prompt :: after ->
       prompt = promptFor diff /\
       (before = [] /\ url = endpoint ++ apiKey \/
        exists earlier k,
          before = earlier ++ [EvSecretStore secretName k] /\
          k ∈ keys /\ url = endpoint ++ k)) /\
    requestsOf evs =
      (fun k => (endpoint ++ k, promptFor diff)) <$> (apiKey :: keys) /\
    storesOf evs = (fun k => (secretName, k)) <$> keys /\
    Forall (fun k => k <> []) keys /\
    networkCalls evs = S (length keys) /\
    match last keys with
    | Some k => secrets w' = <[secretName := k]> (secrets w)
    | None => secrets w' = secrets w
    end.
Proof.
  cbv zeta.
  enough (exists keys closing,
    eventsSince w (generateCommitMessage apiKey diff w).2
      = callEvents diff apiKey keys closing /\
    networkCalls closing = 0%nat /\ count isSecretStore closing = 0%nat /\
    requestsOf (eventsSince w (generateCommitMessage apiKey diff w).2) =
      (fun k => (endpoint ++ k, promptFor diff)) <$> (apiKey :: keys) /\
    storesOf (eventsSince w (generateCommitMessage apiKey diff w).2)
      = (fun k => (secretName, k)) <$> keys /\
    Forall (fun k => k <> []) keys /\
    networkCalls (eventsSince w (generateCommitMessage apiKey diff w).2)
      = S (length keys) /\
    match last keys with
    | Some k => secrets (generateCommitMessage apiKey diff w).2
                = <[secretName := k]> (secrets w)
    | None => secrets (generateCommitMessage apiKey diff w).2 = secrets w
    end) as (keys & closing & Hev & Hnc & Hsc & Hrest).
  { exists keys, closing. split; [done|]. split; [done|]. split; [done|].
    split; [|done].
    intros before url prompt after Heq.
    apply (callEvents_request diff closing keys Hnc apiKey before url prompt
             after).
    by rewrite <- Hev. }
  apply (generateCommitMessage_ind diff (fun apiKey w res =>
    exists keys closing,
      eventsSince w res.2 = callEvents diff apiKey keys closing /\
      networkCalls closing = 0%nat /\ count isSecretStore closing = 0%nat /\
      requestsOf (eventsSince w res.2) =
        (fun k => (endpoint ++ k, promptFor diff)) <$> (apiKey :: keys) /\
      storesOf (eventsSince w res.2) = (fun k => (secretName, k)) <$> keys /\
      Forall (fun k => k <> []) keys /\
      networkCalls (eventsSince w res.2) = S (length keys) /\
      match last keys with
      | Some k => secrets res.2 = <[secretName := k]> (secrets w)
      | None => secrets res.2 = secrets w
      end)); clear apiKey w.
  - intros apiKey w Hr. exists [].
    destruct (attemptOnce_world diff apiKey w Hr) as [H | [H | [H | H]]];
      rewrite H.
    + exists [].
      by rewrite (eventsSince_app w _ [EvFetch (endpoint ++ apiKey)
                                         (promptFor diff)]).
    + eexists [_].
      by rewrite (eventsSince_app w _ [EvFetch (endpoint ++ apiKey)
                                         (promptFor diff); _])
        by (world_simpl; by rewrite <- !app_assoc).
    + eexists [_; _].
      by rewrite (eventsSince_app w _ [EvFetch (endpoint ++ apiKey)
                                         (promptFor diff); _; _])
        by (world_simpl; by rewrite <- !app_assoc).
    + eexists [_].
      by rewrite (eventsSince_app w _ [EvFetch (endpoint ++ apiKey)
                                         (promptFor diff); _])
        by (world_simpl; by rewrite <- !app_assoc).
  - intros apiKey w newKey Hr
      (keys & closing & Hshape & Hnc & Hsc & Hreq & Hsto & Hall & Hn & Hsec).
    set (w3 := retried apiKey diff newKey w) in *.
    set (w' := (generateCommitMessage newKey diff w3).2) in *.
    destruct (retryKey_Some _ _ Hr) as (_ & _ & _ & _ & _ & _ & Hne).
    destruct (generateCommitMessage_run diff newKey w3) as (evs & Hlog & _).
    fold w' in Hlog.
    assert (eventsSince w3 w'
            = EvFetch (endpoint ++ newKey) (promptFor diff) :: evs) as Hev3
      by by apply eventsSince_app.
    assert (eventsSince w w'
            = (EvFetch (endpoint ++ apiKey) (promptFor diff)
                 :: replacement newKey) ++ eventsSince w3 w') as Hev.
    { rewrite Hev3. apply eventsSince_app. rewrite Hlog. unfold w3.
      by rewrite (retried_log diff apiKey w newKey Hr), <- app_assoc. }
    exists (newKey :: keys), closing. rewrite Hev.
    split; [by rewrite Hshape|].
    split; [done|]. split; [done|].
    split; [by rewrite requestsOf_app, Hreq|].
    split; [by rewrite storesOf_app, Hsto|].
    split; [by constructor|].
    split.
    { unfold networkCalls in *. by rewrite count_app, Hn. }
    rewrite last_cons.
    destruct (last keys) as [k|]; rewrite Hsec; [|done].
    unfold w3. world_simpl. apply insert_insert_eq.
Qed.

(** ** Errors that are not answers *)

(** X10: a request that fails in transit, and a success answer whose body
    is not JSON, make [generateCommitMessage] throw the message of that very
    error after one request: no dialog, no retry, nothing stored; the
    handler shows it behind "Commat Commit Error: ". *)
Theorem transport_and_parse_errors_pass_through apiKey diff w e :
  (exists rest, network w = Rejects e :: rest) \/
  (exists r rest, network w = Responds r :: rest /\ status r <> 429 /\
     ok r = true /\ json r = Throw e) ->
  let w' := fetched (endpoint ++ apiKey) (promptFor diff) w in
  generateCommitMessage apiKey diff w = (Throw e, w') /\
  eventsSince w w' = [EvFetch (endpoint ++ apiKey) (promptFor diff)] /\
  secrets w' = secrets w /\
  (forall w0 w1,
     getGeminiApiKey w0 = (Ok (Some apiKey), w1) -> apiKey <> [] ->
     getGitDiff (emit (EvProgress progressTitle) w1) = (Ok diff, w) ->
     allWhiteSpace diff = false ->
     commatCommitGenerate w0 =
     (Ok tt, emit (EvErrorMessage (msgErrorPrefix ++ e) [] None) w')).
Proof.
  intros H w'.
  assert (generateCommitMessage apiKey diff w = (Throw e, w')) as Hg.
  { destruct H as [[rest Hnet] | (r & rest & Hnet & Hst & Hok & Hj)].
    - rewrite generateCommitMessage_final.
      + by apply attemptOnce_rejected with rest.
      + unfold retryKey. by rewrite Hnet.
    - rewrite generateCommitMessage_final
        by (by apply retryKey_not_429 with r rest).
      by apply attemptOnce_bad_json with r rest. }
  split; [done|]. split; [by apply eventsSince_app|]. split; [done|].
  intros w0 w1 Hk Hne Hd Hb.
  by apply (commatCommitGenerate_failed apiKey diff w0 w1 w e w').
Qed.

(** ** What the message may look like *)

Lemma trim_fixed s a b :
  head s = Some a -> last s = Some b ->
  isWhiteSpace a = false -> isWhiteSpace b = false ->
  trim s = s.
Proof.
  intros Hh Hl Ha Hb. unfold trim.
  destruct s as [|c s]; [done|]. injection Hh as ->.
  rewrite trimStart_fixed by done. unfold trimEnd.
  destruct (reverse (a :: s)) as [|d t] eqn:Hrev.
  { apply (f_equal reverse) in Hrev. by rewrite reverse_involutive in Hrev. }
  assert (d = b) as ->.
  { rewrite <- head_reverse, Hrev in Hl. by injection Hl. }
  rewrite trimStart_fixed by done.
  by rewrite <- Hrev, reverse_involutive.
Qed.

(** X11: nothing but trimming is done to the text.  A joined text that
    starts and ends with characters that are not white space is returned as
    it is, whatever its length and whatever line feeds it contains: the
    "single line" and "maximum 50 characters" of the prompt are not
    enforced. *)
Theorem message_is_returned_as_answered
    apiKey diff w r rest data parts joined a b :
  network w = Responds r :: rest -> status r <> 429 -> ok r = true ->
  json r = Ok data -> partsOf data = Some (JArr parts) ->
  joinedText parts = Some joined ->
  head joined = Some a -> last joined = Some b ->
  isWhiteSpace a = false -> isWhiteSpace b = false ->
  generateCommitMessage apiKey diff w =
  (Ok joined, fetched (endpoint ++ apiKey) (promptFor diff) w).
Proof.
  intros Hnet Hst Hok Hj Hp Ht Hh Hl Ha Hb.
  rewrite generateCommitMessage_final
    by (by apply retryKey_not_429 with r rest).
  rewrite (attemptOnce_text _ _ _ _ _ _ _ _ Hnet Hst Hok Hj Hp Ht).
  rewrite (trim_fixed _ _ _ Hh Hl Ha Hb).
  by destruct joined.
Qed.

(** X12: the text of a part is not required to be a string.  A truthy
    value of any other type (a number other than 0, [true], an array, an
    object) is converted to a string by [join] and becomes the message: a
    number gives its digits, an object ["[object Object]"]; only a
    conversion that throws makes the call fail, with that [TypeError]. *)
Theorem text_of_any_type_is_converted
    apiKey diff w r rest data fields v :
  network w = Responds r :: rest -> status r <> 429 -> ok r = true ->
  json r = Ok data -> partsOf data = Some (JArr [JObj fields]) ->
  ownProperty (lit "text") fields = Some v -> toBoolean (Some v) = true ->
  let w' := fetched (endpoint ++ apiKey) (promptFor diff) w in
  generateCommitMessage apiKey diff w =
  (match toString v with
   | Some s => if allWhiteSpace s then Throw msgEmpty else Ok (trim s)
   | None => Throw msgTypeError
   end, w') /\
  (forall digits, v = JNum digits -> toString v = Some digits) /\
  (forall properties,
     v = JObj properties ->
     ownProperty (lit "toString") properties = None ->
     toString v = Some (lit "[object Object]")).
Proof.
  intros Hnet Hst Hok Hj Hp Hv Hb w'.
  assert (joinedText [JObj fields] = toString v) as Ht.
  { unfold joinedText, textsOf. rewrite fmap_cons, fmap_nil.
    change (optChain (Some (JObj fields)) (getProp (lit "text")))
      with (ownProperty (lit "text") fields).
    rewrite Hv, filter_cons_True, filter_nil by done.
    rewrite fmap_cons, fmap_nil. cbn [joinWith].
    by destruct v. }
  split; [|split].
  - rewrite generateCommitMessage_final
      by (by apply retryKey_not_429 with r rest).
    destruct (toString v) as [s|] eqn:Hs.
    + rewrite (attemptOnce_text _ _ _ _ _ _ _ _ Hnet Hst Hok Hj Hp Ht).
      by rewrite truthy_trim; destruct (allWhiteSpace s).
    + by rewrite (attemptOnce_type_error _ _ _ _ _ _ _ Hnet Hst Hok Hj Hp Ht).
  - by intros digits ->.
  - intros properties -> Hnone. cbn [toString]. by rewrite Hnone.
Qed.

(** X13: a diff that is not blank always reaches the endpoint, and as
    [git] printed it: the request that follows the [exec] carries the key in
    its URL and a prompt that is fixed instructions followed by the diff,
    neither trimmed nor cut. *)
Theorem diff_is_sent_as_it_is w apiKey w1 diff w2 :
  getGeminiApiKey w = (Ok (Some apiKey), w1) -> apiKey <> [] ->
  getGitDiff (emit (EvProgress progressTitle) w1) = (Ok diff, w2) ->
  allWhiteSpace diff = false ->
  let w' := (commatCommitGenerate w).2 in
  (exists later,
     eventsSince w2 w' =
     EvFetch (endpoint ++ apiKey) (promptFor diff) :: later) /\
  (1 <= networkCalls (eventsSince w w'))%nat /\
  promptFor diff = promptFor [] ++ diff.
Proof.
  intros Hk Hne Hd Hb w'.
  destruct (commatCommitGenerate_prefix _ _ _ _ _ Hk Hd)
    as (evs & cwd & others & _ & Hlog2 & _).
  destruct (generateCommitMessage_run diff apiKey w2)
    as (evsG & HlogG & _).
  assert (exists later,
            log w' = log w2 ++ EvFetch (endpoint ++ apiKey) (promptFor diff)
                                 :: later) as [later Hlog].
  { subst w'.
    rewrite (commatCommitGenerate_generated _ _ _ _ _ Hk Hne Hd Hb).
    cbv zeta.
    destruct (generateCommitMessage apiKey diff w2) as [[m|e] w3];
      cbn [snd] in HlogG;
      [destruct (gitRepositories w3) as [[|? ?]|]|];
      cbn [snd]; world_simpl; rewrite HlogG;
      eexists (evsG ++ [_]);
      by repeat first [rewrite <- app_assoc | rewrite <- app_comm_cons]. }
  split; [|split].
  - exists later. by apply eventsSince_app.
  - rewrite (eventsSince_app w w'
               ((evs ++ [EvProgress progressTitle;
                         EvExec gitCommand cwd maxBuffer])
                ++ EvFetch (endpoint ++ apiKey) (promptFor diff) :: later)).
    + unfold networkCalls. rewrite count_app, count_cons. cbn [isFetch]. lia.
    + by rewrite Hlog, Hlog2, <- !app_assoc.
  - unfold promptFor. by rewrite app_nil_r, <- !app_assoc.
Qed.

(** ** The earlier version *)

(** Where the current version finds the parts, the earlier one finds
    them too. *)
Lemma Earlier_parts_found data parts (k : option JSON -> Result jsstring) :
  partsOf data = Some parts ->
  Earlier.andThen
    (Earlier.member (lit "candidates") (getProp (lit "candidates")) (Some data))
    (fun candidates =>
  Earlier.andThen (Earlier.member (lit "0") getIndex0 candidates)
    (fun candidate =>
  Earlier.andThen
    (Earlier.member (lit "content") (getProp (lit "content")) candidate)
    (fun content =>
  Earlier.andThen
    (Earlier.member (lit "parts") (getProp (lit "parts")) content) k)))
  = k (Some parts).
Proof.
  unfold partsOf. intros H.
  destruct data; try discriminate H.
  all: cbn [optChain Earlier.member Earlier.andThen] in *.
  all: destruct (getProp (lit "candidates") _) as [[]|]; try discriminate H.
  all: cbn [optChain Earlier.member Earlier.andThen] in *.
  all: destruct (getIndex0 _) as [[]|]; try discriminate H.
  all: cbn [optChain Earlier.member Earlier.andThen] in *.
  all: destruct (getProp (lit "content") _) as [[]|]; try discriminate H.
  all: cbn [optChain Earlier.member Earlier.andThen] in *.
  all: by rewrite H.
Qed.

Lemma Earlier_textOf_first data p parts s :
  partsOf data = Some (JArr (p :: parts)) ->
  getProp (lit "text") p = Some (JStr s) ->
  Earlier.textOf data = Ok (trim s).
Proof.
  intros Hp Ht. unfold Earlier.textOf.
  rewrite (Earlier_parts_found data (JArr (p :: parts)) _ Hp).
  cbn [Earlier.member Earlier.andThen getIndex0].
  destruct p; try discriminate Ht.
  cbn [Earlier.member Earlier.andThen]. by rewrite Ht.
Qed.

Lemma Earlier_generateCommitMessage_eq apiKey diff w r rest :
  network w = Responds r :: rest ->
  Earlier.generateCommitMessage apiKey diff w =
  (match json r with
   | Ok data => Earlier.textOf data
   | Throw e => Throw e
   end, fetched (endpoint ++ apiKey) (Earlier.promptFor diff) w).
Proof.
  intros Hnet. unfold Earlier.generateCommitMessage, bind, fetch, responseJson.
  rewrite Hnet. by destruct (json r).
Qed.

(** The joined text of the current version starts with the text of the
    first part. *)
Lemma joinedText_cons_text p parts first :
  getProp (lit "text") p = Some (JStr first) ->
  joinedText (p :: parts) = (first ++.) <$> joinedText parts.
Proof.
  intros Ht. unfold joinedText, textsOf. rewrite fmap_cons.
  assert (optChain (Some p) (getProp (lit "text")) = Some (JStr first)) as ->.
  { by destruct p. }
  destruct first as [|c first].
  - rewrite filter_cons_False by (simpl; done).
    by destruct (joinWith _ _).
  - rewrite filter_cons_True by done.
    rewrite fmap_cons.
    change (joinElement (Some (JStr (c :: first)))) with (Some (c :: first)).
    apply joinWith_nil_cons.
Qed.

(** X14: the earlier version and the current one agree on the first text.
    When the first part of the first candidate has a string as its text, the
    earlier version returns that text trimmed (even when that is empty),
    whatever the status of the answer and without ever asking for a key; the
    text the current version joins starts with it, and is it when there is
    no other part.  So on a success answer with a single part whose text is
    not blank the two versions return the same message. *)
Theorem earlier_version_reads_only_the_first_text
    apiKey diff w r rest data p parts first :
  network w = Responds r :: rest -> json r = Ok data ->
  partsOf data = Some (JArr (p :: parts)) ->
  getProp (lit "text") p = Some (JStr first) ->
  let earlier := Earlier.generateCommitMessage apiKey diff w in
  earlier =
    (Ok (trim first),
     fetched (endpoint ++ apiKey) (Earlier.promptFor diff) w) /\
  (forall joined,
     joinedText (p :: parts) = Some joined ->
     exists more, joined = first ++ more /\ (parts = [] -> more = [])) /\
  (status r <> 429 -> ok r = true -> parts = [] ->
   allWhiteSpace first = false ->
   (generateCommitMessage apiKey diff w).1 = earlier.1).
Proof.
  intros Hnet Hj Hp Ht earlier.
  assert (earlier = (Ok (trim first),
            fetched (endpoint ++ apiKey) (Earlier.promptFor diff) w)) as He.
  { subst earlier. rewrite (Earlier_generateCommitMessage_eq _ _ _ _ _ Hnet), Hj.
    by rewrite (Earlier_textOf_first _ _ _ _ Hp Ht). }
  split; [done|]. split.
  - intros joined. rewrite (joinedText_cons_text _ _ _ Ht).
    destruct (joinedText parts) as [more|] eqn:Hmore; [|discriminate].
    intros [= <-]. exists more. split; [done|].
    intros ->. by injection Hmore.
  - intros Hst Hok -> Hb. rewrite He. cbn [fst].
    rewrite generateCommitMessage_final
      by (by apply retryKey_not_429 with r rest).
    assert (joinedText [p] = Some first) as Hjoin.
    { rewrite (joinedText_cons_text _ _ _ Ht).
      change (joinedText []) with (Some (@nil N)). cbn [fmap option_fmap option_map].
      by rewrite app_nil_r. }
    rewrite (attemptOnce_text apiKey diff w r rest data [p] first
               Hnet Hst Hok Hj Hp Hjoin).
    by rewrite truthy_trim, Hb.
Qed.

(** X15: the earlier version can deliver an empty message.  When the first
    text of the answer is blank, its handler writes the empty string into
    the input box of the first repository and shows no error. *)
Theorem earlier_version_delivers_empty_message
    w apiKey w1 diff w2 r rest data p parts s repo others :
  getGeminiApiKey w = (Ok (Some apiKey), w1) -> apiKey <> [] ->
  getGitDiff (emit (EvProgress progressTitle) w1) = (Ok diff, w2) ->
  allWhiteSpace diff = false ->
  network w2 = Responds r :: rest -> json r = Ok data ->
  partsOf data = Some (JArr (p :: parts)) ->
  getProp (lit "text") p = Some (JStr s) -> allWhiteSpace s = true ->
  gitRepositories w = Some (repo :: others) ->
  let w' := (Earlier.commatCommitGenerate w).2 in
  (Earlier.commatCommitGenerate w).1 = Ok tt /\
  gitRepositories w' = Some ([] :: others) /\
  last (eventsSince w w') = Some (EvCommitInput 0 []) /\
  count isErrorMessage (eventsSince w w') = 0%nat.
Proof.
  intros Hk Hne Hd Hb Hnet Hj Hp Ht Hs Hrepos w'.
  destruct (commatCommitGenerate_prefix _ _ _ _ _ Hk Hd)
    as (evs & cwd & folders & _ & Hlog2 & Hrepo2 & _ & _ & _ & He).
  assert (Earlier.generateCommitMessage apiKey diff w2 =
          (Ok [], fetched (endpoint ++ apiKey) (Earlier.promptFor diff) w2))
    as Hg.
  { rewrite (Earlier_generateCommitMessage_eq _ _ _ _ _ Hnet), Hj.
    rewrite (Earlier_textOf_first _ _ _ _ Hp Ht).
    apply trim_nil_iff in Hs. by rewrite Hs. }
  assert (Earlier.commatCommitGenerate w =
          (Ok tt, emit (EvCommitInput 0 [])
                    (setGitRepositories (Some ([] :: others))
                       (fetched (endpoint ++ apiKey)
                          (Earlier.promptFor diff) w2)))) as Hrun.
  { unfold Earlier.commatCommitGenerate, tryCatch.
    rewrite (bind_Ok _ _ _ _ _ Hk).
    destruct apiKey as [|c k]; [done|].
    change (truthy (Some (c :: k))) with true. cbn [negb].
    change (default [] (Some (c :: k))) with (c :: k).
    unfold withProgress.
    rewrite (bind_Ok _ _ _ _ _ Hd), truthy_trim, Hb. cbn [negb].
    rewrite (bind_Ok _ _ _ _ _ Hg).
    pose proof (getActiveRepository_eq
                  (fetched (endpoint ++ c :: k) (Earlier.promptFor diff) w2))
      as Hrepo.
    world_simpl. rewrite Hrepo2, Hrepos in Hrepo.
    rewrite (bind_Ok _ _ _ _ _ Hrepo). unfold setInputBoxValue.
    world_simpl. by rewrite Hrepo2, Hrepos. }
  subst w'. rewrite Hrun. cbn [fst snd].
  split; [done|]. split; [done|].
  rewrite (eventsSince_app w _
             (evs ++ [EvProgress progressTitle;
                      EvExec gitCommand cwd maxBuffer;
                      EvFetch (endpoint ++ apiKey) (Earlier.promptFor diff);
                      EvCommitInput 0 []])).
  2:{ world_simpl. by rewrite Hlog2, <- !app_assoc. }
  split.
  - by rewrite (last_app_cons evs [_; _; _] _).
  - by rewrite count_app, He.
Qed.

(** ** The run in which nothing goes wrong *)

(** X16: with a key in the storage, a folder open, a [git] that exits
    with 0 after writing staged changes to its standard output and no more
    than [maxBuffer] bytes to either stream, an answer that carries a text,
    and at least one repository known to the Git extension, the run is
    silent: exactly the progress, the [exec], one request and the write
    happen, in this order.  No input box, no dialog and no notification is
    shown, and the secret storage is not written. *)
Theorem run_without_trouble_is_silent
    w key cwd folders diff errOut r rest data parts joined repo others :
  secrets w !! secretName = Some key -> key <> [] ->
  workspaceFolders w = Some (cwd :: folders) ->
  gitDiffCached w = Runs 0 diff errOut ->
  utf8Length diff <= maxBuffer -> utf8Length errOut <= maxBuffer ->
  allWhiteSpace diff = false ->
  network w = Responds r :: rest -> status r <> 429 -> ok r = true ->
  json r = Ok data -> partsOf data = Some (JArr parts) ->
  joinedText parts = Some joined -> allWhiteSpace joined = false ->
  gitRepositories w = Some (repo :: others) ->
  let w' := (commatCommitGenerate w).2 in
  eventsSince w w' =
    [EvProgress progressTitle; EvExec gitCommand cwd maxBuffer;
     EvFetch (endpoint ++ key) (promptFor diff);
     EvCommitInput 0 (trim joined)] /\
  gitRepositories w' = Some (trim joined :: others) /\
  secrets w' = secrets w /\
  inputAnswers w' = inputAnswers w /\ choiceAnswers w' = choiceAnswers w /\
  network w' = rest.
Proof.
  intros Hs Hkey Hf Hgit Hlen Herr Hb Hnet Hst Hok Hj Hp Ht Hbj Hrepos w'.
  assert (getGeminiApiKey w = (Ok (Some key), w)) as Hk.
  { rewrite getGeminiApiKey_eq, Hs. by destruct key. }
  set (w2 := emit (EvExec gitCommand cwd maxBuffer)
               (emit (EvProgress progressTitle) w)).
  assert (getGitDiff (emit (EvProgress progressTitle) w) = (Ok diff, w2))
    as Hd.
  { rewrite getGitDiff_eq. world_simpl. rewrite Hf, Hgit.
    assert ((maxBuffer <? utf8Length diff) = false) as ->
      by by apply N.ltb_ge.
    assert ((maxBuffer <? utf8Length errOut) = false) as ->
      by by apply N.ltb_ge.
    done. }
  assert (generateCommitMessage key diff w2 =
          (Ok (trim joined), fetched (endpoint ++ key) (promptFor diff) w2))
    as Hg.
  { rewrite generateCommitMessage_final
      by (by apply retryKey_not_429 with r rest).
    rewrite (attemptOnce_text key diff w2 r rest data parts joined
               Hnet Hst Hok Hj Hp Ht).
    by rewrite truthy_trim, Hbj. }
  subst w'.
  rewrite (commatCommitGenerate_generated _ _ _ _ _ Hk Hkey Hd Hb), Hg.
  cbv zeta. subst w2. world_simpl. rewrite Hrepos. cbn [snd]. world_simpl.
  split; [|by rewrite Hnet].
  apply eventsSince_app. world_simpl. by rewrite <- !app_assoc.
Qed.

(** X17: an answer without [candidates], such as the error report that
    comes with a 429, makes the earlier version throw the [TypeError] of
    reading [0] of [undefined], whatever the status, without any dialog.  On
    the same body the current version shows the rate-limit dialog when the
    status is 429 and throws "Failed to generate commit message" when the
    status is a success. *)
Theorem earlier_version_fails_without_candidates
    apiKey diff w r rest fields :
  network w = Responds r :: rest -> json r = Ok (JObj fields) ->
  ownProperty (lit "candidates") fields = None ->
  Earlier.generateCommitMessage apiKey diff w =
    (Throw (Earlier.cannotRead (lit "undefined") (lit "0")),
     fetched (endpoint ++ apiKey) (Earlier.promptFor diff) w) /\
  (status r <> 429 -> ok r = true ->
   generateCommitMessage apiKey diff w =
   (Throw msgParseFailed,
    emit EvConsoleError
      (fetched (endpoint ++ apiKey) (promptFor diff) w))) /\
  (status r = 429 ->
   exists later,
     eventsSince w (generateCommitMessage apiKey diff w).2 =
     EvFetch (endpoint ++ apiKey) (promptFor diff)
       :: EvErrorMessage msgRateLimitDialog [btnEnterNewKey; btnCancel]
            (nextChoice w) :: later).
Proof.
  intros Hnet Hj Hc. split; [|split].
  - rewrite (Earlier_generateCommitMessage_eq _ _ _ _ _ Hnet), Hj.
    unfold Earlier.textOf.
    cbn [Earlier.member Earlier.andThen getProp]. by rewrite Hc.
  - intros Hst Hok.
    rewrite generateCommitMessage_final
      by (by apply retryKey_not_429 with r rest).
    apply attemptOnce_no_parts with r rest (JObj fields); try done.
    intros parts. unfold partsOf. cbn [optChain getProp]. by rewrite Hc.
  - intros Hst. rewrite generateCommitMessage_unfold.
    rewrite (generateCommitMessageBody_429 _ _ _ _ _ _ Hnet Hst).
    case_bool_decide as Hchoice.
    + destruct (truthy (nextInput w)) eqn:Hi.
      * destruct (generateCommitMessage_run diff (default [] (nextInput w))
                    (retried apiKey diff (default [] (nextInput w)) w))
          as (evs & Hlog & _).
        eexists. apply eventsSince_app. rewrite Hlog. world_simpl.
        change (nextChoice (fetched _ _ w)) with (nextChoice w).
        by repeat first [rewrite <- app_assoc | rewrite <- app_comm_cons].
      * eexists [_]. apply eventsSince_app. cbn [snd]. world_simpl.
        change (nextChoice (fetched _ _ w)) with (nextChoice w).
        by rewrite <- !app_assoc.
    + exists []. apply eventsSince_app. cbn [snd]. world_simpl.
      change (nextChoice (fetched _ _ w)) with (nextChoice w).
      by rewrite <- !app_assoc.
Qed.

(** The scenario of a first answer with a text: four events. *)
Lemma run_without_trouble_is_silent_witness :
  allWhiteSpace sampleDiff = false /\
  eventsSince wHello (commatCommitGenerate wHello).2 =
    [EvProgress progressTitle; EvExec gitCommand (lit "/repo") maxBuffer;
     EvFetch (endpoint ++ key1) (promptFor sampleDiff);
     EvCommitInput 0 (trim (lit "feat: add hello line" ++ [10]))].
Proof.
  split; [reflexivity|].
  apply (run_without_trouble_is_silent wHello key1 (lit "/repo") []
           sampleDiff []
           (mkResponse 200 true
              (Ok (reply [textPart (lit "feat: add hello line" ++ [10])])))
           [] (reply [textPart (lit "feat: add hello line" ++ [10])])
           [textPart (lit "feat: add hello line" ++ [10])]
           (lit "feat: add hello line" ++ [10]) [] []).
  - vm_compute. reflexivity.
  - vm_compute. discriminate.
  - reflexivity.
  - reflexivity.
  - vm_compute. discriminate.
  - vm_compute. discriminate.
  - reflexivity.
  - reflexivity.
  - cbn [status]. lia.
  - reflexivity.
  - reflexivity.
  - reflexivity.
  - vm_compute. reflexivity.
  - reflexivity.
  - reflexivity.
Defined.

(** The error report of a 429, read by the earlier version. *)
Lemma earlier_version_fails_without_candidates_witness :
  Earlier.generateCommitMessage key1 sampleDiff
    (sampleWorld sampleDiff
       [Responds (mkResponse 429 false (Ok rateLimitReport))] [] []) =
  (Throw (Earlier.cannotRead (lit "undefined") (lit "0")),
   fetched (endpoint ++ key1) (Earlier.promptFor sampleDiff)
     (sampleWorld sampleDiff
        [Responds (mkResponse 429 false (Ok rateLimitReport))] [] [])).
Proof.
  apply (earlier_version_fails_without_candidates key1 sampleDiff
           (sampleWorld sampleDiff
              [Responds (mkResponse 429 false (Ok rateLimitReport))] [] [])
           (mkResponse 429 false (Ok rateLimitReport)) []
           [(lit "error", JObj [(lit "code", JNum (lit "429"))])]).
  - reflexivity.
  - reflexivity.
  - reflexivity.
Defined.

(** ** Further runs on sample worlds *)

(** Two repositories: the message goes to the first, the draft of the
    second stays. *)
Lemma message_is_written_to_first_repository_witness :
  allWhiteSpace sampleDiff = false /\
  gitRepositories (commatCommitGenerate wTwoRepositories).2
  = Some [lit "fix: typo"; lit "draft"].
Proof.
  split; [reflexivity|].
  destruct (message_is_written_to_first_repository wTwoRepositories key1
              wTwoRepositories sampleDiff
              (emit (EvExec gitCommand (lit "/repo") maxBuffer)
                 (emit (EvProgress progressTitle) wTwoRepositories))
              (lit "fix: typo")
              (generateCommitMessage key1 sampleDiff
                 (emit (EvExec gitCommand (lit "/repo") maxBuffer)
                    (emit (EvProgress progressTitle) wTwoRepositories))).2
              (lit "old") [lit "draft"])
    as (_ & Hrepos & _).
  - vm_compute. reflexivity.
  - vm_compute. discriminate.
  - vm_compute. reflexivity.
  - reflexivity.
  - vm_compute. reflexivity.
  - reflexivity.
  - exact Hrepos.
Defined.

(** Without the Git extension the request is sent and the message lost. *)
Lemma missing_repository_drops_the_message_witness :
  gitRepositories wNoGitExtension = None /\
  (1 <= networkCalls
          (eventsSince wNoGitExtension
             (commatCommitGenerate wNoGitExtension).2))%nat.
Proof.
  split; [reflexivity|].
  destruct (missing_repository_drops_the_message wNoGitExtension key1
              wNoGitExtension sampleDiff
              (emit (EvExec gitCommand (lit "/repo") maxBuffer)
                 (emit (EvProgress progressTitle) wNoGitExtension))
              (lit "fix: typo")
              (generateCommitMessage key1 sampleDiff
                 (emit (EvExec gitCommand (lit "/repo") maxBuffer)
                    (emit (EvProgress progressTitle) wNoGitExtension))).2)
    as (Hrun & Hcalls & _).
  - vm_compute. reflexivity.
  - vm_compute. discriminate.
  - vm_compute. reflexivity.
  - reflexivity.
  - vm_compute. reflexivity.
  - left. reflexivity.
  - rewrite Hrun. exact Hcalls.
Defined.

(** No folder is open: the error is shown and no request is sent. *)
Lemma diff_failure_stops_before_any_request_witness :
  networkCalls
    (eventsSince wNoWorkspace (commatCommitGenerate wNoWorkspace).2) = 0%nat.
Proof.
  destruct (diff_failure_stops_before_any_request wNoWorkspace (Some key1)
              wNoWorkspace msgNoWorkspace
              (emit (EvProgress progressTitle) wNoWorkspace))
    as (Hrun & _ & _ & Hcalls & _).
  - vm_compute. reflexivity.
  - reflexivity.
  - vm_compute. reflexivity.
  - rewrite Hrun. exact Hcalls.
Defined.

(** Nothing stored, the user types a key. *)
Lemma first_use_key_is_saved_and_reused_witness :
  nextInput (freshWorld [Some key2]) = Some key2 /\
  exists w1,
    getGeminiApiKey (freshWorld [Some key2]) = (Ok (Some key2), w1) /\
    getGeminiApiKey w1 = (Ok (Some key2), w1).
Proof.
  split; [reflexivity|].
  destruct (first_use_key_is_saved_and_reused (freshWorld [Some key2]) key2)
    as (Hfirst & _ & _ & _ & Hagain).
  - reflexivity.
  - reflexivity.
  - vm_compute. discriminate.
  - eexists. split; [exact Hfirst | exact Hagain].
Defined.

(** A stored key is overwritten by the answer to the replacement prompt. *)
Lemma replacement_prompt_overwrites_the_stored_key_witness :
  secrets wReplacedThenError !! secretName = Some key1 /\
  secrets (promptNewGeminiApiKey wReplacedThenError).2 !! secretName
  = Some key2.
Proof.
  split; [vm_compute; reflexivity|].
  destruct (proj1 (replacement_prompt_overwrites_the_stored_key
                     wReplacedThenError) key2)
    as (Hrun & Hsecrets & _).
  - reflexivity.
  - vm_compute. discriminate.
  - rewrite Hrun. cbn [snd]. rewrite Hsecrets. apply lookup_insert_eq.
Defined.

(** An entry under another name is left alone. *)
Lemma run_touches_only_the_key_entry_witness :
  secrets (commatCommitGenerate wRateLimitedTwice).2 !! lit "other"
  = secrets wRateLimitedTwice !! lit "other".
Proof.
  apply (proj1 (run_touches_only_the_key_entry wRateLimitedTwice)).
  vm_compute. discriminate.
Defined.

(** The key typed at first use is in the storage after the run. *)
Lemma first_use_key_survives_the_run_witness :
  truthy (secrets (freshWorld [Some key2]) !! secretName) = false /\
  (secrets (commatCommitGenerate (freshWorld [Some key2])).2
   = <[secretName := key2]> (secrets (freshWorld [Some key2])) \/
   exists v' before after,
     v' <> [] /\
     secrets (commatCommitGenerate (freshWorld [Some key2])).2
     = <[secretName := v']> (secrets (freshWorld [Some key2])) /\
     eventsSince
       (emit (EvInformationMessage msgKeySaved)
          (stored secretName key2
             (asked promptFirstKey (freshWorld [Some key2]))))
       (commatCommitGenerate (freshWorld [Some key2])).2
     = before ++ replacement v' ++ after).
Proof.
  split; [reflexivity|].
  apply (first_use_key_survives_the_run (freshWorld [Some key2]) key2).
  - reflexivity.
  - reflexivity.
  - vm_compute. discriminate.
Defined.

(** The network is down. *)
Lemma transport_and_parse_errors_pass_through_witness :
  generateCommitMessage key1 sampleDiff wNetworkDown =
  (Throw (lit "fetch failed"),
   fetched (endpoint ++ key1) (promptFor sampleDiff) wNetworkDown).
Proof.
  apply (transport_and_parse_errors_pass_through key1 sampleDiff wNetworkDown
           (lit "fetch failed")).
  left. exists []. reflexivity.
Defined.

(** A message of two lines and more than fifty characters comes back
    whole. *)
Lemma message_is_returned_as_answered_witness :
  (50 < length longMessage)%nat /\
  generateCommitMessage key1 sampleDiff wLongMessage =
  (Ok longMessage,
   fetched (endpoint ++ key1) (promptFor sampleDiff) wLongMessage).
Proof.
  split; [vm_compute; lia|].
  apply (message_is_returned_as_answered key1 sampleDiff wLongMessage
           (mkResponse 200 true (Ok (reply [textPart longMessage]))) []
           (reply [textPart longMessage]) [textPart longMessage] longMessage
           102 121).
  - reflexivity.
  - cbn [status]. lia.
  - reflexivity.
  - reflexivity.
  - reflexivity.
  - vm_compute. reflexivity.
  - vm_compute. reflexivity.
  - vm_compute. reflexivity.
  - reflexivity.
  - reflexivity.
Defined.

(** The number 42 in the place of the text becomes the message "42". *)
Lemma text_of_any_type_is_converted_witness :
  generateCommitMessage key1 sampleDiff wNumberAsText =
  (Ok (lit "42"),
   fetched (endpoint ++ key1) (promptFor sampleDiff) wNumberAsText).
Proof.
  destruct (text_of_any_type_is_converted key1 sampleDiff wNumberAsText
              (mkResponse 200 true
                 (Ok (reply [JObj [(lit "text", JNum (lit "42"))]]))) []
              (reply [JObj [(lit "text", JNum (lit "42"))]])
              [(lit "text", JNum (lit "42"))] (JNum (lit "42")))
    as (Hrun & _).
  - reflexivity.
  - cbn [status]. lia.
  - reflexivity.
  - reflexivity.
  - reflexivity.
  - reflexivity.
  - reflexivity.
  - rewrite Hrun. vm_compute. reflexivity.
Defined.

(** The sample diff ends with a line feed, and is sent with it. *)
Lemma diff_is_sent_as_it_is_witness :
  last sampleDiff = Some 10 /\
  promptFor sampleDiff = promptFor [] ++ sampleDiff.
Proof.
  split; [vm_compute; reflexivity|].
  apply (diff_is_sent_as_it_is wHello key1 wHello sampleDiff
           (emit (EvExec gitCommand (lit "/repo") maxBuffer)
              (emit (EvProgress progressTitle) wHello))).
  - vm_compute. reflexivity.
  - vm_compute. discriminate.
  - vm_compute. reflexivity.
  - reflexivity.
Defined.

(** Two texts: the earlier version returns the first, "feat: add". *)
Lemma earlier_version_reads_only_the_first_text_witness :
  Earlier.generateCommitMessage key1 sampleDiff wTwoSegments =
  (Ok (trim (lit "feat: add")),
   fetched (endpoint ++ key1) (Earlier.promptFor sampleDiff) wTwoSegments).
Proof.
  apply (earlier_version_reads_only_the_first_text key1 sampleDiff
           wTwoSegments (mkResponse 200 true (Ok twoSegments)) []
           twoSegments (textPart (lit "feat: add"))
           [textPart (lit " hello")] (lit "feat: add")).
  - reflexivity.
  - reflexivity.
  - reflexivity.
  - reflexivity.
Defined.

(** A blank text: the earlier handler writes the empty string. *)
Lemma earlier_version_delivers_empty_message_witness :
  allWhiteSpace (lit "  " ++ [10]) = true /\
  gitRepositories (Earlier.commatCommitGenerate wBlankAnswer).2 = Some [[]].
Proof.
  split; [reflexivity|].
  destruct (earlier_version_delivers_empty_message wBlankAnswer key1
              wBlankAnswer sampleDiff
              (emit (EvExec gitCommand (lit "/repo") maxBuffer)
                 (emit (EvProgress progressTitle) wBlankAnswer))
              (mkResponse 200 true
                 (Ok (reply [textPart (lit "  " ++ [10])]))) []
              (reply [textPart (lit "  " ++ [10])])
              (textPart (lit "  " ++ [10])) [] (lit "  " ++ [10]) [] [])
    as (_ & Hrepos & _).
  - vm_compute. reflexivity.
  - vm_compute. discriminate.
  - vm_compute. reflexivity.
  - reflexivity.
  - reflexivity.
  - reflexivity.
  - reflexivity.
  - reflexivity.
  - reflexivity.
  - reflexivity.
  - exact Hrepos.
Defined.
